(** * Backgammon game analyzer: board regions, placeholder detectors and the
    game-state log writer

    The development has two parts, following the two halves of the program:

    - [Detector]: the arithmetic of [CheckerDetector] (js/detector.js):
      [detectBoardRegions], [detectDicePips], [detectCubeValue] and the
      colour assignment of [detectDice];
    - [SaveMove]: the request handler php/save_move.php, which turns a
      decoded game state into log lines and appends them to moves.txt;
    - [DetectorMore]: [detectCheckers], [detectDoublingCube] and
      [drawBoardRegions] of the same class;
    - [SaveMoveV1]: the first version of the handler, which logs one line
      per detection;
    - [DetectorV1] and [AppV1]: [detect] and [updateInfoPanel] of the first
      version of the client.

    JavaScript numbers are IEEE 754 binary64 values.  The detector code is
    written once, over an interface [JSNumber] of the arithmetic it uses,
    and read at two instances: [float] (Rocq's primitive binary64 floats,
    the arithmetic the browser performs) and [Q] (the same expressions in
    exact arithmetic). *)

From Stdlib Require Import ZArith QArith Qabs Qround List Bool Lia Lqa.
From Stdlib Require Import Strings.String Strings.Ascii Numbers.DecimalString.
From Stdlib Require Import Floats.
Import ListNotations.

#[local] Set Warnings "-inexact-float".

(** ** The arithmetic used by the detector *)

Class JSNumber (num : Type) : Type := {
  js_add : num -> num -> num;          (* a + b *)
  js_sub : num -> num -> num;          (* a - b *)
  js_mul : num -> num -> num;          (* a * b *)
  js_div : num -> num -> num;          (* a / b *)
  js_lt : num -> num -> bool;          (* a < b *)
  js_floor : num -> num;               (* Math.floor(a) *)
  js_int : Z -> num;                   (* an integer literal or loop counter *)
  js_0_1 : num;                        (* the literal 0.1 *)
  js_0_9 : num                         (* the literal 0.9 *)
}.

Module Binary64.

(** Conversion of an integer (of magnitude below 2^63) to binary64. *)
Definition of_Z (z : Z) : float :=
  match z with
  | Z0 => 0%float
  | Zpos _ => PrimFloat.of_uint63 (Uint63.of_Z z)
  | Zneg p => PrimFloat.opp (PrimFloat.of_uint63 (Uint63.of_Z (Zpos p)))
  end.

(** [Math.floor]: a finite value m * 2^e with e < 0 is cut to the integer
    below it; values with e >= 0, zeros, infinities and NaN are returned
    unchanged. *)
Definition floor (f : float) : float :=
  match Prim2SF f with
  | S754_finite s m e =>
      if (0 <=? e)%Z then f
      else of_Z (Z.shiftr (if s then Zneg m else Zpos m) (- e))
  | _ => f
  end.

End Binary64.

#[export] Instance float_number : JSNumber float := {|
  js_add := PrimFloat.add;
  js_sub := PrimFloat.sub;
  js_mul := PrimFloat.mul;
  js_div := PrimFloat.div;
  js_lt := PrimFloat.ltb;
  js_floor := Binary64.floor;
  js_int := Binary64.of_Z;
  js_0_1 := 0.1%float;
  js_0_9 := 0.9%float
|}.

Definition Qltb (a b : Q) : bool :=
  match Qcompare a b with Lt => true | _ => false end.

#[export] Instance exact_number : JSNumber Q := {|
  js_add := Qplus;
  js_sub := Qminus;
  js_mul := Qmult;
  js_div := Qdiv;
  js_lt := Qltb;
  js_floor := fun q => inject_Z (Qfloor q);
  js_int := inject_Z;
  js_0_1 := 1 # 10;
  js_0_9 := 9 # 10
|}.

(** ** js/detector.js *)

Module Detector.

Inductive side_t : Type := top | bottom.

Record region (num : Type) : Type := {
  point : nat;
  x : num;
  y : num;
  side : side_t
}.
Arguments Build_region {num} _ _ _ _.
Arguments point {num} _.
Arguments x {num} _.
Arguments y {num} _.
Arguments side {num} _.

Record canvas_t (num : Type) : Type := {
  width : num;
  height : num
}.
Arguments Build_canvas_t {num} _ _.
Arguments width {num} _.
Arguments height {num} _.

(** [for (let i = start; ...; i++) { arr.push(body(i)); }] run for
    [steps] iterations on the array [arr]. *)
Fixpoint for_push {A : Type} (body : nat -> A) (i steps : nat)
    (arr : list A) : list A :=
  match steps with
  | O => arr
  | S steps' => for_push body (S i) steps' (arr ++ [body i])
  end.

Section Arithmetic.
Context {num : Type} `{JSNumber num}.

Definition of_nat (i : nat) : num := js_int (Z.of_nat i).

(** [detectBoardRegions()], with [this.canvas] as argument. *)
Definition detectBoardRegions (canvas : canvas_t num) : list (region num) :=
  let boardWidth := width canvas in
  let boardHeight := height canvas in
  let regions := [] in
  let regionWidth := js_div boardWidth (js_int 12) in
  let regions :=
    for_push (fun i =>
      {| point := i + 1;
         x := js_add (js_mul regionWidth (of_nat i))
                     (js_div regionWidth (js_int 2));
         y := js_mul boardHeight js_0_1;
         side := top |}) 0 12 regions in
  let regions :=
    for_push (fun i =>
      {| point := i + 13;
         x := js_add (js_mul regionWidth (of_nat i))
                     (js_div regionWidth (js_int 2));
         y := js_mul boardHeight js_0_9;
         side := bottom |}) 0 12 regions in
  regions.

(** [Math.random()]: the generator is the stream of its future draws. *)
Definition rng : Type := nat -> num.

Definition Math_random (g : rng) : num * rng :=
  (g O, fun n => g (S n)).

(** [detectDicePips(centerX, centerY, diceRadius)]. *)
Definition detectDicePips (centerX centerY diceRadius : num) (g : rng)
    : num * rng :=
  let (u, g') := Math_random g in
  (js_add (js_floor (js_mul u (js_int 6))) (js_int 1), g').

(** [detectCubeValue(x, y)]. *)
Definition detectCubeValue (x0 y0 : num) : num := js_int 1.

Record die : Type := {
  die_x : num;
  die_y : num;
  die_radius : num;
  die_pips : num
}.

Record dice_t : Type := {
  red : option die;
  white : option die
}.

(** The matrix filled by [cv.HoughCircles]: [rows] circles stored as
    consecutive triples in [data32F]. *)
Record mat : Type := {
  rows : nat;
  data32F : list num
}.

(** One iteration of the loop of [detectDice].  An index outside the
    typed array reads [undefined], which fails the comparisons. *)
Definition dice_step (canvas : canvas_t num) (circle : list num) (i : nat)
    (st : list die * rng) : list die * rng :=
  let (dice, g) := st in
  match nth_error circle (i * 3), nth_error circle (i * 3 + 1),
        nth_error circle (i * 3 + 2) with
  | Some x0, Some y0, Some radius =>
      if js_lt (js_int 0) x0 && js_lt (js_int 0) y0
         && js_lt x0 (width canvas) && js_lt y0 (height canvas)
         && js_lt radius (js_int 25)
      then
        let (pipCount, g') := detectDicePips x0 y0 radius g in
        (dice ++ [ {| die_x := x0; die_y := y0; die_radius := radius;
                      die_pips := pipCount |} ], g')
      else (dice, g)
  | _, _, _ => (dice, g)
  end.

Fixpoint dice_loop (canvas : canvas_t num) (circle : list num)
    (i steps : nat) (st : list die * rng) : list die * rng :=
  match steps with
  | O => st
  | S steps' =>
      dice_loop canvas circle (S i) steps' (dice_step canvas circle i st)
  end.

(** The array [dice] at the end of the loop of [detectDice]. *)
Definition detected_dice (canvas : canvas_t num) (diceCircles : mat)
    (g : rng) : list die * rng :=
  dice_loop canvas (data32F diceCircles) 0 (rows diceCircles) ([], g).

(** [detectDice()], with the output of [cv.HoughCircles] as argument:
    [{ red: dice[0] || null, white: dice[1] || null }]. *)
Definition detectDice (canvas : canvas_t num) (diceCircles : mat)
    (g : rng) : dice_t * rng :=
  let (dice, g') := detected_dice canvas diceCircles g in
  ({| red := nth_error dice 0; white := nth_error dice 1 |}, g').

End Arithmetic.

Arguments die : clear implicits.
Arguments dice_t : clear implicits.
Arguments mat : clear implicits.
Arguments rng : clear implicits.

End Detector.


(** ** php/save_move.php *)

Module SaveMove.

#[local] Open Scope string_scope.

(** The line feed written as ["\n"] in the PHP source. *)
Definition nl : string := String (ascii_of_nat 10) EmptyString.

(** *** The decoded submission

    [json_decode($input, true)] is a PHP builtin; the handler starts from
    its result.  A field is [None] exactly when [isset] is false on it (the
    key is absent or holds null).  Numbers are represented by their exact
    value, which every PHP int and finite float has. *)

(** A pip count or cube value as sent: an integer or a string. *)
Inductive scalar : Type :=
| SInt (z : Z)
| SStr (s : string).

Record checker : Type := {
  checker_x : option Q;
  checker_y : option Q
}.

Record die : Type := {
  die_x : Q;
  die_y : Q;
  die_pips : option scalar
}.

Record dice_t : Type := {
  red : option die;
  white : option die
}.

(** [cube_y] is read only when [cube_x] is set. *)
Record cube_t : Type := {
  cube_x : option Q;
  cube_y : Q;
  cube_value : option scalar
}.

(** [checkers] is [Some] when the key is set and holds an array. *)
Record game_state : Type := {
  checkers : option (list checker);
  dice : option dice_t;
  cube : option cube_t
}.

Record submission : Type := {
  gameState : option game_state;
  timestamp : option string
}.

(** [data] is [None] when [$data] is falsy: the body is not valid JSON
    (json_decode returns null) or decodes to an empty value. *)
Record request : Type := {
  request_method : string;
  data : option submission
}.

(** What the handler reads from the server: the clock, through
    [date('Y-m-d H:i:s')], and whether the append to moves.txt succeeds. *)
Record environment : Type := {
  now : string;
  write_ok : bool
}.

Inductive body_t : Type :=
| ErrorBody (error : string)
| ServerErrorBody (error message : string)
| SuccessBody (logged : nat) (timestamp : string).

Record response : Type := {
  status : nat;
  body : body_t
}.

(** *** PHP builtins used by the handler *)

(** Decimal notation of an integer, as string interpolation prints it. *)
Definition string_of_Z (z : Z) : string := NilZero.string_of_int (Z.to_int z).

(** [round($v)] with the default mode PHP_ROUND_HALF_UP, on the exact value
    of [$v]: the nearest integer, a half going away from zero.  PHP computes
    it in binary64 (adding 0.5 and, from PHP 8.0 to 8.3, first rounding to
    15 significant digits), so that a float a few units in the last place
    below a half-way point is rounded like the half-way point; the
    statements below that depend on the integer returned are made for the
    coordinates of [SaveMoveFacts.pixel_coordinate], where both agree. *)
Definition php_round (v : Q) : Z :=
  if Qle_bool 0 v then Qfloor (v + (1 # 2)) else Qceiling (v - (1 # 2)).

(** ["{$x}"] for [$x = round($v)].  The result of [round] is a float; a
    negative value that rounds to zero gives the float -0, printed "-0".
    The digits are those PHP prints for an integer-valued float of fewer
    than 15 digits; from 15 digits on PHP switches to exponent notation, and
    a float -0 that was sent as such is printed "-0" as well. *)
Definition interpolate_round (v : Q) : string :=
  let r := php_round v in
  if Qltb v 0 && (r =? 0)%Z then "-0" else string_of_Z r.

(** Interpolation of a pip count or cube value: a string as it is, an
    integer of PHP's int range in decimal notation (a JSON integer beyond
    that range is decoded as a float). *)
Definition interpolate_scalar (s : scalar) : string :=
  match s with
  | SInt z => string_of_Z z
  | SStr s => s
  end.

(** [$v ?? '?'] followed by interpolation. *)
Definition or_question_mark (v : option scalar) : string :=
  match v with
  | Some s => interpolate_scalar s
  | None => "?"
  end.

(** [implode('', $entries)]. *)
Definition implode (entries : list string) : string := String.concat "" entries.

(** [file_put_contents($logFile, $payload, FILE_APPEND | LOCK_EX)]: the new
    content of the file, or [None] when the call returns false.  A failed
    call is taken to leave the file as it was and to print nothing; PHP can
    fail after part of the payload was written, and where it displays its
    warning the status line has gone out before the handler sets 500. *)
Definition file_put_contents (env : environment) (file payload : string)
    : option string :=
  if write_ok env then Some (file ++ payload) else None.

(** *** Lines 131-170: the log entries of one game state *)

Definition header (timestamp title : string) : string :=
  "[" ++ timestamp ++ "] " ++ title.

Definition checkers_header (timestamp : string) (n : nat) : string :=
  header timestamp
    ("=== CHECKERS === (" ++ string_of_Z (Z.of_nat n) ++ " found)" ++ nl).

Definition checker_line (c : checker) : string :=
  let x := match checker_x c with
           | Some v => interpolate_round v
           | None => "0"
           end in
  let y := match checker_y c with
           | Some v => interpolate_round v
           | None => "0"
           end in
  "  - Checker at position (x:" ++ x ++ ", y:" ++ y ++ ")" ++ nl.

Definition dice_header (timestamp : string) : string :=
  header timestamp ("=== DICE ===" ++ nl).

Definition die_line (color : string) (d : die) : string :=
  let x := interpolate_round (die_x d) in
  let y := interpolate_round (die_y d) in
  let pips := or_question_mark (die_pips d) in
  "  - " ++ color ++ " Die: " ++ pips ++ " pips at (x:" ++ x ++ ", y:" ++ y
  ++ ")" ++ nl.

Definition cube_header (timestamp : string) : string :=
  header timestamp ("=== DOUBLING CUBE ===" ++ nl).

Definition cube_line (vx vy : Q) (v : option scalar) : string :=
  let x := interpolate_round vx in
  let y := interpolate_round vy in
  let value := or_question_mark v in
  "  - Cube at (x:" ++ x ++ ", y:" ++ y ++ "), value: " ++ value ++ nl.

(** [$arr[] = $v;] *)
Definition push {A : Type} (arr : list A) (v : A) : list A :=
  (arr ++ [v])%list.

(** [foreach ($gameState['checkers'] as $checker) { $logEntries[] = ...; }] *)
Fixpoint log_checkers (cs : list checker) (logEntries : list string)
    : list string :=
  match cs with
  | [] => logEntries
  | c :: cs' => log_checkers cs' (push logEntries (checker_line c))
  end.

Definition serialize (timestamp : string) (gs : game_state) : list string :=
  let logEntries := [] in
  (* Log checkers *)
  let logEntries :=
    match checkers gs with
    | Some cs =>
        log_checkers cs
          (push logEntries (checkers_header timestamp (List.length cs)))
    | None => logEntries
    end in
  (* Log dice *)
  let logEntries :=
    match dice gs with
    | Some d =>
        let logEntries := push logEntries (dice_header timestamp) in
        let logEntries :=
          match red d with
          | Some r => push logEntries (die_line "Red" r)
          | None => logEntries
          end in
        match white d with
        | Some w => push logEntries (die_line "White" w)
        | None => logEntries
        end
    | None => logEntries
    end in
  (* Log doubling cube *)
  let logEntries :=
    match cube gs with
    | Some c =>
        match cube_x c with
        | Some vx =>
            let logEntries := push logEntries (cube_header timestamp) in
            push logEntries (cube_line vx (cube_y c) (cube_value c))
        | None => logEntries
        end
    | None => logEntries
    end in
  push logEntries nl.

(** *** The request handler *)

(** Lines 112-116: the game state of a submission that passes validation. *)
Definition validate (d : option submission) : option game_state :=
  match d with
  | Some s =>
      match gameState s, timestamp s with
      | Some gs, Some _ => Some gs
      | _, _ => None
      end
  | None => None
  end.

Definition is_empty {A : Type} (l : list A) : bool :=
  match l with [] => true | _ => false end.

(** The whole script: the response, and the content of moves.txt after the
    request. *)
Definition save_move (env : environment) (req : request) (file : string)
    : response * string :=
  if negb (String.eqb (request_method req) "POST") then
    ({| status := 405; body := ErrorBody "Only POST method allowed" |}, file)
  else
    match validate (data req) with
    | None =>
        ({| status := 400; body := ErrorBody "Invalid data format" |}, file)
    | Some gs =>
        let timestamp := now env in
        let logEntries := serialize timestamp gs in
        let written :=
          if negb (is_empty logEntries)
          then file_put_contents env file (implode logEntries)
          else None in
        match written with
        | Some file' =>
            ({| status := 200;
                body := SuccessBody (List.length logEntries) timestamp |}, file')
        | None =>
            ({| status := 500;
                body := ServerErrorBody "Server error"
                          "Failed to write to log file" |}, file)
        end
    end.

End SaveMove.

(** ** js/detector.js: the other detection functions *)

(** [a === b] on numbers. *)
Class JSEquality (num : Type) : Type := {
  js_eq : num -> num -> bool
}.

#[export] Instance float_equality : JSEquality float := {|
  js_eq := PrimFloat.eqb
|}.

#[export] Instance exact_equality : JSEquality Q := {|
  js_eq := Qeq_bool
|}.

Module DetectorMore.

Import Detector.

Section Arithmetic.
Context {num : Type} `{JSNumber num} `{JSEquality num}.

(** The test of [detectCheckers] (and of the first version's [detect]) on a
    circle centre. *)
Definition in_frame (canvas : canvas_t num) (x0 y0 : num) : bool :=
  js_lt (js_int 0) x0 && js_lt (js_int 0) y0
  && js_lt x0 (width canvas) && js_lt y0 (height canvas).

(** An entry [{ x, y, radius, type: 'checker' }].  The radius is read
    without a test: an index outside the typed array gives [undefined]. *)
Record checker : Type := {
  checker_x : num;
  checker_y : num;
  checker_radius : option num
}.

(** One iteration of the loop of [detectCheckers]. *)
Definition checkers_step (canvas : canvas_t num) (circle : list num) (i : nat)
    (checkers : list checker) : list checker :=
  match nth_error circle (i * 3), nth_error circle (i * 3 + 1) with
  | Some x0, Some y0 =>
      if js_lt (js_int 0) x0 && js_lt (js_int 0) y0
         && js_lt x0 (width canvas) && js_lt y0 (height canvas)
      then checkers ++ [ {| checker_x := x0; checker_y := y0;
                            checker_radius := nth_error circle (i * 3 + 2) |} ]
      else checkers
  | _, _ => checkers
  end.

Fixpoint checkers_loop (canvas : canvas_t num) (circle : list num)
    (i steps : nat) (checkers : list checker) : list checker :=
  match steps with
  | O => checkers
  | S steps' =>
      checkers_loop canvas circle (S i) steps'
        (checkers_step canvas circle i checkers)
  end.

(** [detectCheckers()], with the output of [cv.HoughCircles] as argument. *)
Definition detectCheckers (canvas : canvas_t num) (circles : mat num)
    : list checker :=
  checkers_loop canvas (data32F circles) 0 (rows circles) [].

(** What [detectDoublingCube] reads of one contour: [cv.contourArea], the
    number of vertices of the polygon of [cv.approxPolyDP], and the moments
    m00, m10 and m01 of [cv.moments]. *)
Record contour : Type := {
  area : num;
  approx_rows : nat;
  m00 : num;
  m10 : num;
  m01 : num
}.

(** [bestCube]: [{ x, y, area, value }]. *)
Record cube : Type := {
  cube_x : num;
  cube_y : num;
  cube_area : num;
  cube_value : num
}.

(** One iteration of the loop of [detectDoublingCube] on the state
    [(bestCube, maxArea)]. *)
Definition cube_step (st : option cube * num) (c : contour)
    : option cube * num :=
  let (bestCube, maxArea) := st in
  if js_lt (js_int 1000) (area c) && js_lt (area c) (js_int 10000) then
    if (4 <=? approx_rows c)%nat && (approx_rows c <=? 6)%nat
       && js_lt maxArea (area c)
    then
      if negb (js_eq (m00 c) (js_int 0)) then
        let cx := js_div (m10 c) (m00 c) in
        let cy := js_div (m01 c) (m00 c) in
        (Some {| cube_x := cx; cube_y := cy; cube_area := area c;
                 cube_value := detectCubeValue cx cy |},
         area c)
      else (bestCube, maxArea)
    else (bestCube, maxArea)
  else (bestCube, maxArea).

(** [detectDoublingCube()], with the contours of [cv.findContours] as
    argument.  [None] is the object [{ position: null, value: null }]
    returned when [bestCube] is still null.  (The same object is returned
    when the vision library throws; that path has no counterpart here.) *)
Definition detectDoublingCube (contours : list contour) : option cube :=
  fst (fold_left cube_step contours (None, js_int 0)).

(** The canvas calls of [drawBoardRegions] that leave a mark: one
    [arc(x, y, 15, 0, 2 * Math.PI)] followed by [stroke()] per drawn region.
    An arc is recorded by its centre and radius. *)
Fixpoint drawBoardRegions_from (index : nat) (regions : list (region num))
    : list (num * num * num) :=
  match regions with
  | [] => []
  | r :: regions' =>
      if (index mod 3 =? 0)%nat
      then (x r, y r, js_int 15) :: drawBoardRegions_from (S index) regions'
      else drawBoardRegions_from (S index) regions'
  end.

(** [drawBoardRegions(regions)]: [regions.forEach((region, index) => ...)]. *)
Definition drawBoardRegions (regions : list (region num))
    : list (num * num * num) :=
  drawBoardRegions_from 0 regions.

End Arithmetic.

Arguments checker : clear implicits.
Arguments contour : clear implicits.
Arguments cube : clear implicits.

End DetectorMore.

(** ** php/save_move.php, first version: one line per detection *)

Module SaveMoveV1.

#[local] Open Scope string_scope.

(** An element of [$data['detections']]; a coordinate is [None] when
    [isset] is false on it. *)
Record detection : Type := {
  detection_x : option Q;
  detection_y : option Q
}.

Record submission : Type := {
  detections : option (list detection);
  timestamp : option string
}.

Record request : Type := {
  request_method : string;
  data : option submission
}.

Definition detection_line (timestamp : string) (d : detection) : string :=
  let x := match detection_x d with
           | Some v => SaveMove.interpolate_round v
           | None => "0"
           end in
  let y := match detection_y d with
           | Some v => SaveMove.interpolate_round v
           | None => "0"
           end in
  "[" ++ timestamp ++ "] Checker detected at position (x:" ++ x ++ ", y:"
  ++ y ++ ")" ++ SaveMove.nl.

(** [foreach ($detections as $detection) { $logEntries[] = ...; }] *)
Fixpoint log_detections (timestamp : string) (ds : list detection)
    (logEntries : list string) : list string :=
  match ds with
  | [] => logEntries
  | d :: ds' =>
      log_detections timestamp ds'
        (SaveMove.push logEntries (detection_line timestamp d))
  end.

(** Lines 27-31: the detections of a submission that passes validation. *)
Definition validate (d : option submission) : option (list detection) :=
  match d with
  | Some s =>
      match detections s, timestamp s with
      | Some ds, Some _ => Some ds
      | _, _ => None
      end
  | None => None
  end.

(** The whole script: the response, and the content of moves.txt after the
    request. *)
Definition save_move (env : SaveMove.environment) (req : request)
    (file : string) : SaveMove.response * string :=
  if negb (String.eqb (request_method req) "POST") then
    ({| SaveMove.status := 405;
        SaveMove.body := SaveMove.ErrorBody "Only POST method allowed" |},
     file)
  else
    match validate (data req) with
    | None =>
        ({| SaveMove.status := 400;
            SaveMove.body := SaveMove.ErrorBody "Invalid data format" |},
         file)
    | Some ds =>
        let timestamp := SaveMove.now env in
        let logEntries := log_detections timestamp ds [] in
        let written :=
          if negb (SaveMove.is_empty logEntries)
          then SaveMove.file_put_contents env file
                 (SaveMove.implode logEntries)
          else None in
        match written with
        | Some file' =>
            ({| SaveMove.status := 200;
                SaveMove.body :=
                  SaveMove.SuccessBody (List.length logEntries) timestamp |},
             file')
        | None =>
            ({| SaveMove.status := 500;
                SaveMove.body :=
                  SaveMove.ServerErrorBody "Server error"
                    "Failed to write to log file" |},
             file)
        end
    end.

End SaveMoveV1.

(** ** js/detector.js and js/app.js, first version *)

Module DetectorV1.

Import Detector.

Section Arithmetic.
Context {num : Type} `{JSNumber num}.

(** An entry [{ x, y, radius }] of the array [detect] returns. *)
Record detection : Type := {
  detection_x : num;
  detection_y : num;
  detection_radius : option num
}.

(** One iteration of the loop of [detect] on the array [detections] and on
    the canvas: [drawDetection(x, y, radius)] leaves one marker, recorded by
    its centre and radius. *)
Definition detect_step (canvas : canvas_t num) (circle : list num) (i : nat)
    (st : list detection * list (num * num * option num))
    : list detection * list (num * num * option num) :=
  let (detections, drawn) := st in
  match nth_error circle (i * 3), nth_error circle (i * 3 + 1) with
  | Some x0, Some y0 =>
      let radius := nth_error circle (i * 3 + 2) in
      if js_lt (js_int 0) x0 && js_lt (js_int 0) y0
         && js_lt x0 (width canvas) && js_lt y0 (height canvas)
      then (detections ++ [ {| detection_x := x0; detection_y := y0;
                               detection_radius := radius |} ],
            drawn ++ [ (x0, y0, radius) ])
      else (detections, drawn)
  | _, _ => (detections, drawn)
  end.

Fixpoint detect_loop (canvas : canvas_t num) (circle : list num)
    (i steps : nat) (st : list detection * list (num * num * option num))
    : list detection * list (num * num * option num) :=
  match steps with
  | O => st
  | S steps' =>
      detect_loop canvas circle (S i) steps' (detect_step canvas circle i st)
  end.

(** [detect()]: the detections returned and the markers drawn.
    [initialized] is [this.initialized]; [ready] says that the video's
    [readyState] is [HAVE_ENOUGH_DATA]; [circles] is the output of
    [cv.HoughCircles]. *)
Definition detect (initialized ready : bool) (canvas : canvas_t num)
    (circles : mat num)
    : list detection * list (num * num * option num) :=
  if negb initialized || negb ready then ([], [])
  else detect_loop canvas (data32F circles) 0 (rows circles) ([], []).

End Arithmetic.

Arguments detection : clear implicits.

End DetectorV1.

Module AppV1.

#[local] Open Scope string_scope.

(** [Math.round(v)]: the nearest integer, a half going towards plus
    infinity. *)
Definition Math_round (v : Q) : Z := Qfloor (v + (1 # 2)).

(** [arr.slice(-5)]: the last five elements, or all of them. *)
Definition slice_last_five {A : Type} (arr : list A) : list A :=
  skipn (List.length arr - 5) arr.

(** The list item of one detection [det = (x, y)] at index [idx] of the
    slice.  A template literal prints an integer below 10^21 with all its
    digits. *)
Definition item (idx : nat) (det : Q * Q) : string :=
  "<li>Checker " ++ SaveMove.string_of_Z (Z.of_nat (idx + 1)) ++ ": ("
  ++ SaveMove.string_of_Z (Math_round (fst det)) ++ ", "
  ++ SaveMove.string_of_Z (Math_round (snd det)) ++ ")</li>".

(** [arr.forEach((det, idx) => { html += ...; })] from index [idx] on. *)
Fixpoint forEach_item (idx : nat) (arr : list (Q * Q)) (html : string)
    : string :=
  match arr with
  | [] => html
  | det :: arr' => forEach_item (S idx) arr' (html ++ item idx det)
  end.

(** [updateInfoPanel(detections)]: the content of the info panel after the
    call, given its content before. *)
Definition updateInfoPanel (detections : list (Q * Q)) (infoContent : string)
    : string :=
  match detections with
  | [] => infoContent
  | _ =>
      let html := "<p><strong>Recent Detections:</strong></p><ul>" in
      let html := forEach_item 0 (slice_last_five detections) html in
      html ++ "</ul>"
  end.

End AppV1.

(** * Properties of the detector *)

Module DetectorFacts.

Import Detector.

(** The board of the default camera request of js/app.js: 1280 by 720. *)
Definition hd_canvas : canvas_t float :=
  {| width := 1280%float; height := 720%float |}.

(** The x-coordinate of the region stored at position [k] of the array. *)
Definition x_at {num : Type} `{JSNumber num} (regions : list (region num))
    (k : nat) : num :=
  nth k (map x regions) (js_int 0).

(** The spacing the specification asks of a board [W] by [H], in the
    arithmetic of the browser: the difference of two neighbouring
    x-coordinates is the number W / 12.  Both ways of writing "differ by"
    are accepted: [x' - x = W / 12] or [x + W / 12 = x']. *)
Definition evenly_spaced (W H : float) : Prop :=
  let regions := detectBoardRegions {| width := W; height := H |} in
  forall k : nat, (k < 11)%nat ->
    (x_at regions (S k) - x_at regions k = W / 12)%float \/
    (x_at regions k + W / 12 = x_at regions (S k))%float.

Lemma for_push_map {A : Type} (body : nat -> A) (steps i : nat) (arr : list A) :
  for_push body i steps arr = arr ++ map body (seq i steps).
Proof.
  revert i arr.
  induction steps as [|steps IH]; intros i arr; simpl.
  - now rewrite app_nil_r.
  - rewrite IH, <- app_assoc. reflexivity.
Qed.

Section Layout.
Context {num : Type} `{JSNumber num}.
Variables W H0 : num.

Let regionWidth : num := js_div W (js_int 12).
Let column (k : nat) : num :=
  js_add (js_mul regionWidth (of_nat k)) (js_div regionWidth (js_int 2)).

Lemma detectBoardRegions_rows :
  detectBoardRegions {| width := W; height := H0 |} =
  map (fun k => {| point := k + 1; x := column k;
                   y := js_mul H0 js_0_1; side := top |}) (seq 0 12)
  ++
  map (fun k => {| point := k + 13; x := column k;
                   y := js_mul H0 js_0_9; side := bottom |}) (seq 0 12).
Proof.
  unfold detectBoardRegions.
  cbv zeta.
  rewrite !for_push_map.
  reflexivity.
Qed.

End Layout.

(** [Math.floor(u * 6) + 1] in exact arithmetic, for a draw u of [0, 1). *)
Lemma floor_times_six (u : Q) :
  0 <= u -> u < 1 -> (0 <= Qfloor (u * 6) <= 5)%Z.
Proof.
  intros H0 H1. split.
  - change 0%Z with (Qfloor 0). apply Qfloor_resp_le.
    setoid_replace 0 with (0 * 6) by ring.
    apply Qmult_le_compat_r; [assumption | discriminate].
  - assert (Hlt : (Qfloor (u * 6) < 6)%Z).
    { rewrite Zlt_Qlt.
      apply Qle_lt_trans with (u * 6); [apply Qfloor_le |].
      setoid_replace (inject_Z 6) with (1 * 6) by ring.
      apply Qmult_lt_compat_r; [reflexivity | assumption]. }
    lia.
Qed.

Lemma inject_Z_succ (z : Z) : inject_Z z + inject_Z 1 = inject_Z (z + 1).
Proof.
  unfold Qplus, inject_Z. simpl. now rewrite Z.mul_1_r.
Qed.

(** In binary64 the regions of the 1280 by 720 board are not evenly spaced:
    the x-coordinates of the third and fourth point are 266.66666666666669
    and 373.33333333333331, and neither their difference nor the sum
    266.66666666666669 + 1280/12 meets 1280/12 = 106.66666666666667. *)
Lemma hd_board_not_evenly_spaced : ~ evenly_spaced 1280 720.
Proof.
  intros Hc.
  destruct (Hc 2%nat ltac:(lia)) as [E | E].
  - apply (f_equal (fun v => PrimFloat.eqb v (1280 / 12)%float)) in E.
    vm_compute in E. discriminate E.
  - apply (f_equal (fun v => PrimFloat.eqb v 373.33333333333331%float)) in E.
    vm_compute in E. discriminate E.
Qed.

(** C1, as amended.  [detectBoardRegions] returns exactly 24 points,
    whatever the arithmetic: for k = 0..11 the point at position k has index
    k + 1, side [top], y = H * 0.1 and x = (W / 12) * k + (W / 12) / 2, and
    the point at position k + 12 has index k + 13, side [bottom],
    y = H * 0.9 and the same x.  In exact arithmetic x is the centre
    (W / 12) * k + W / 24 of column k and the x-coordinates of neighbouring
    points of a row differ by exactly W / 12; in binary64 each operation
    rounds, and the spacing holds only up to that rounding. *)
Theorem board_regions_layout :
  (forall (num : Type) (N : JSNumber num) (W H : num),
     let regions := detectBoardRegions {| width := W; height := H |} in
     let regionWidth := js_div W (js_int 12) in
     let column k :=
       js_add (js_mul regionWidth (of_nat k)) (js_div regionWidth (js_int 2)) in
     List.length regions = 24%nat /\
     Forall (fun k : nat =>
       nth_error regions k =
         Some {| point := k + 1; x := column k;
                 y := js_mul H js_0_1; side := top |} /\
       nth_error regions (k + 12) =
         Some {| point := k + 13; x := column k;
                 y := js_mul H js_0_9; side := bottom |}) (seq 0 12))
  /\
  (forall W H : Q,
     let regions := detectBoardRegions {| width := W; height := H |} in
     Forall (fun k : nat =>
       x_at regions k == (W / 12) * inject_Z (Z.of_nat k) + W / 24 /\
       x_at regions (k + 12) == x_at regions k) (seq 0 12) /\
     Forall (fun k : nat =>
       x_at regions (S k) - x_at regions k == W / 12 /\
       x_at regions (S k + 12) - x_at regions (k + 12) == W / 12) (seq 0 11)).
Proof.
  split.
  - intros num N W H regions regionWidth column.
    subst regions. rewrite detectBoardRegions_rows.
    split; [reflexivity|].
    repeat constructor.
  - intros W H regions.
    subst regions. unfold x_at. rewrite detectBoardRegions_rows.
    split.
    + repeat (constructor; [split; [cbn; field | cbn; reflexivity] | ]).
      constructor.
    + repeat (constructor; [split; cbn; field | ]).
      constructor.
Qed.

(** The draw of [Math.random()] that is constantly [u]. *)
Definition constant_rng {num : Type} (u : num) : rng num := fun _ => u.

(** In exact arithmetic: [detectCubeValue] returns the number 1 at every
    position, and [Math.floor(u * 6) + 1] is an integer between 1 and 6 for
    every draw u with 0 <= u < 1. *)
Lemma pips_exact_arithmetic :
  (forall (num : Type) (N : JSNumber num) (x0 y0 : num),
     detectCubeValue x0 y0 = js_int 1)
  /\
  (forall (g : rng Q) (centerX centerY diceRadius : Q),
     0 <= g 0%nat /\ g 0%nat < 1 ->
     exists k : Z,
       (1 <= k <= 6)%Z /\
       fst (detectDicePips centerX centerY diceRadius g) = inject_Z k).
Proof.
  split.
  - reflexivity.
  - intros g centerX centerY diceRadius [H0 H1].
    exists (Qfloor (g 0%nat * 6) + 1)%Z. split.
    + pose proof (floor_times_six (g 0%nat) H0 H1). lia.
    + unfold detectDicePips, Math_random. simpl.
      apply inject_Z_succ.
Qed.

Lemma pips_exact_arithmetic_example :
  exists k : Z,
    (1 <= k <= 6)%Z /\
    fst (detectDicePips 150 200 12 (constant_rng (5 # 6))) = inject_Z k.
Proof.
  apply (proj2 pips_exact_arithmetic (constant_rng (5 # 6)) 150 200 12).
  unfold constant_rng, Qle, Qlt. simpl. lia.
Defined.

(** The same two functions evaluated in binary64: the cube value is 1, and
    the smallest draw 0, the largest draw below 1 and a draw in between give
    1, 6 and 3 pips. *)
Lemma placeholders_binary64 :
  detectCubeValue 50%float 300%float = 1%float /\
  (fst (detectDicePips 150 200 12 (constant_rng 0)) = 1)%float /\
  (fst (detectDicePips 150 200 12 (constant_rng 0x1.fffffffffffffp-1)) = 6)%float /\
  (fst (detectDicePips 150 200 12 (constant_rng 0.4)) = 3)%float.
Proof. repeat split; vm_compute; reflexivity. Qed.

(** Two circles inside a 1280 by 720 frame, in both row orders. *)
Definition two_circles : mat float :=
  {| rows := 2; data32F := [150; 200; 12; 170; 210; 14]%float |}.

Definition two_circles_swapped : mat float :=
  {| rows := 2; data32F := [170; 210; 14; 150; 200; 12]%float |}.

Definition one_circle : mat float :=
  {| rows := 1; data32F := [150; 200; 12]%float |}.

(** Swapping the two rows of the circle matrix swaps the colours. *)
Lemma swapped_rows_swap_colours :
  let a := fst (detectDice hd_canvas two_circles (constant_rng 0.4%float)) in
  let b :=
    fst (detectDice hd_canvas two_circles_swapped (constant_rng 0.4%float)) in
  option_map die_x (red a) = Some 150%float /\
  option_map die_x (white a) = Some 170%float /\
  option_map die_x (red b) = Some 170%float /\
  option_map die_x (white b) = Some 150%float.
Proof. repeat split; vm_compute; reflexivity. Qed.

End DetectorFacts.

(** * Properties of the log writer *)

Module SaveMoveFacts.

Import SaveMove.
#[local] Open Scope string_scope.

(** The log format (specification, section 4.2): which prefix a line has. *)
Definition timestamped (ts line : string) : bool :=
  String.prefix ("[" ++ ts ++ "] ") line.

Definition indented (line : string) : bool := String.prefix "  " line.

(** A section is empty, or a timestamped header followed by detail lines
    that are indented and carry no timestamp prefix. *)
Definition well_formed_section (ts : string) (section : list string) : Prop :=
  match section with
  | [] => True
  | h :: details =>
      timestamped ts h = true /\
      Forall (fun l => indented l = true /\ timestamped ts l = false) details
  end.

(** The three sections of the log format, written from the specification. *)
Definition checkers_section (ts : string) (gs : game_state) : list string :=
  match checkers gs with
  | Some cs => checkers_header ts (List.length cs) :: map checker_line cs
  | None => []
  end.

Definition dice_section (ts : string) (gs : game_state) : list string :=
  match dice gs with
  | Some d =>
      dice_header ts
      :: (match red d with Some r => [die_line "Red" r] | None => [] end
          ++ match white d with Some w => [die_line "White" w] | None => [] end)%list
  | None => []
  end.

Definition cube_section (ts : string) (gs : game_state) : list string :=
  match cube gs with
  | Some c =>
      match cube_x c with
      | Some vx => [cube_header ts; cube_line vx (cube_y c) (cube_value c)]
      | None => []
      end
  | None => []
  end.

Lemma log_checkers_app (cs : list checker) (logEntries : list string) :
  log_checkers cs logEntries = (logEntries ++ map checker_line cs)%list.
Proof.
  revert logEntries.
  induction cs as [|c cs IH]; intros logEntries; simpl.
  - now rewrite app_nil_r.
  - rewrite IH. unfold push. now rewrite <- app_assoc.
Qed.

Lemma serialize_sections (ts : string) (gs : game_state) :
  serialize ts gs =
  (checkers_section ts gs ++ dice_section ts gs ++ cube_section ts gs
   ++ [nl])%list.
Proof.
  unfold serialize, checkers_section, dice_section, cube_section, push.
  destruct (checkers gs) as [cs|];
    destruct (dice gs) as [[[r|] [w|]]|];
    destruct (cube gs) as [[[vx|] vy v]|];
    cbn [red white cube_x cube_y cube_value];
    rewrite ?log_checkers_app; cbn [app];
    repeat rewrite <- app_assoc; reflexivity.
Qed.

Lemma prefix_append (s t : string) : String.prefix s (s ++ t) = true.
Proof.
  induction s as [|a s IH]; simpl.
  - now destruct t.
  - destruct (ascii_dec a a) as [_|Hne]; [exact IH | now elim Hne].
Qed.

Lemma header_timestamped (ts title : string) :
  timestamped ts (header ts title) = true.
Proof.
  unfold timestamped, header.
  replace ("[" ++ ts ++ "] " ++ title) with (("[" ++ ts ++ "] ") ++ title).
  - apply prefix_append.
  - simpl. f_equal. induction ts as [|a ts IH]; simpl; [reflexivity|].
    now rewrite IH.
Qed.

Lemma checker_line_detail (ts : string) (c : checker) :
  indented (checker_line c) = true /\ timestamped ts (checker_line c) = false.
Proof. split; reflexivity. Qed.

Lemma die_line_detail (ts color : string) (d : die) :
  indented (die_line color d) = true /\
  timestamped ts (die_line color d) = false.
Proof. split; reflexivity. Qed.

Lemma cube_line_detail (ts : string) (vx vy : Q) (v : option scalar) :
  indented (cube_line vx vy v) = true /\
  timestamped ts (cube_line vx vy v) = false.
Proof. split; reflexivity. Qed.


(** C3.  A snapshot with an empty checkers list, no dice and no cube gives
    two entries: the checkers header with "(0 found)" and the blank line. *)
Theorem serialize_empty_snapshot (ts : string) :
  serialize ts {| checkers := Some []; dice := None; cube := None |} =
  ["[" ++ ts ++ "] === CHECKERS === (0 found)" ++ nl; nl].
Proof. reflexivity. Qed.

(** What the detector sends when it sees nothing is not that snapshot: its
    [dice] is the object [{red: null, white: null}] and its [cube] the
    object [{position: null, value: null}], so the dice header is logged. *)
Lemma serialize_nothing_detected (ts : string) (vy : Q) :
  serialize ts
    {| checkers := Some [];
       dice := Some {| red := None; white := None |};
       cube := Some {| cube_x := None; cube_y := vy; cube_value := None |} |} =
  ["[" ++ ts ++ "] === CHECKERS === (0 found)" ++ nl;
   "[" ++ ts ++ "] === DICE ===" ++ nl; nl].
Proof. reflexivity. Qed.

(** *** Rounding *)

Lemma php_round_nonneg (v : Q) : 0 <= v -> php_round v = Qfloor (v + (1 # 2)).
Proof.
  intros Hv. unfold php_round.
  apply Qle_bool_iff in Hv. now rewrite Hv.
Qed.

(** [round] is odd: a negative half goes away from zero as well. *)
Lemma php_round_opp (v : Q) : php_round (- v) = (- php_round v)%Z.
Proof.
  unfold php_round.
  destruct (Qle_bool 0 v) eqn:Hv; destruct (Qle_bool 0 (- v)) eqn:Hn.
  - apply Qle_bool_iff in Hv. apply Qle_bool_iff in Hn.
    assert (E : v == 0).
    { apply Qle_antisym; [|assumption].
      apply Qopp_le_compat in Hn. now rewrite Qopp_involutive in Hn. }
    rewrite (Qfloor_comp (- v + (1 # 2)) (1 # 2)) by (rewrite E; ring).
    rewrite (Qfloor_comp (v + (1 # 2)) (1 # 2)) by (rewrite E; ring).
    reflexivity.
  - unfold Qceiling. f_equal. apply Qfloor_comp. ring.
  - unfold Qceiling. rewrite Z.opp_involutive. apply Qfloor_comp. ring.
  - exfalso.
    assert (H1 : ~ 0 <= v) by (rewrite <- Qle_bool_iff; congruence).
    assert (H2 : ~ 0 <= - v) by (rewrite <- Qle_bool_iff; congruence).
    apply Qnot_le_lt in H1. apply H2.
    apply Qlt_le_weak in H1. apply Qopp_le_compat in H1. exact H1.
Qed.

Lemma floor_half_up (v : Q) :
  inject_Z (Qfloor (v + (1 # 2))) - (1 # 2) <= v /\
  v < inject_Z (Qfloor (v + (1 # 2))) + (1 # 2).
Proof.
  pose proof (Qfloor_le (v + (1 # 2))) as Hl.
  pose proof (Qlt_floor (v + (1 # 2))) as Hu.
  rewrite inject_Z_plus in Hu. change (inject_Z 1) with 1 in Hu.
  split; lra.
Qed.

(** [round] returns a nearest integer. *)
Lemma php_round_nearest (v : Q) :
  inject_Z (php_round v) - (1 # 2) <= v /\
  v <= inject_Z (php_round v) + (1 # 2).
Proof.
  unfold php_round. destruct (Qle_bool 0 v).
  - pose proof (floor_half_up v). split; lra.
  - pose proof (Qle_ceiling (v - (1 # 2))) as Hu.
    pose proof (Qceiling_lt (v - (1 # 2))) as Hl.
    unfold Z.sub in Hl. rewrite inject_Z_plus in Hl.
    change (inject_Z (Z.opp 1)) with (Qopp 1) in Hl.
    split; lra.
Qed.

Lemma interpolate_round_nonneg (v : Q) :
  0 <= v -> interpolate_round v = string_of_Z (Qfloor (v + (1 # 2))).
Proof.
  intros Hv. unfold interpolate_round.
  rewrite (php_round_nonneg v Hv).
  assert (E : Qltb v 0 = false).
  { unfold Qltb. destruct (v ?= 0)%Q eqn:Ec; try reflexivity.
    apply Qlt_alt in Ec. now apply Qlt_not_le in Ec. }
  now rewrite E.
Qed.

Lemma serialize_checker_entry (ts : string) (gs : game_state)
    (cs : list checker) (k : nat) (c : checker) :
  checkers gs = Some cs -> nth_error cs k = Some c ->
  nth_error (serialize ts gs) (S k) = Some (checker_line c).
Proof.
  intros Hcs Hk.
  rewrite serialize_sections. unfold checkers_section. rewrite Hcs.
  assert (Hlen : (k < List.length cs)%nat).
  { apply nth_error_Some. congruence. }
  rewrite nth_error_app1 by (simpl; rewrite length_map; lia).
  simpl. rewrite nth_error_map, Hk. reflexivity.
Qed.

(** The rounding the specification words: the nearest integer, a half
    rounded up. *)
Definition round_half_up (v : Q) : Z := Qfloor (v + (1 # 2)).

(** The specification's sentence about one checker: its line prints both
    coordinates rounded half up. *)
Definition logged_rounded_half_up (c : checker) : Prop :=
  forall vx vy : Q,
    checker_x c = Some vx -> checker_y c = Some vy ->
    checker_line c =
      "  - Checker at position (x:" ++ string_of_Z (round_half_up vx)
      ++ ", y:" ++ string_of_Z (round_half_up vy) ++ ")" ++ nl.

(** A checker on a negative half-way point. *)
Definition checker_left_of_frame : checker :=
  {| checker_x := Some (-5 # 2); checker_y := Some 3 |}.


(** Pixel coordinates: positive, below 10^7, and not within 10^-6 of a
    half-way point k + 1/2 without being on it.  On these the binary64
    arithmetic of [round] (the pre-rounding of PHP 8.0 to 8.3 and the
    addition of 0.5 move a value by far less than 10^-6) and the 14-digit
    float-to-string conversion give the exact integer and all its digits.
    The nearest half-way point of [v] is [floor v + 1/2]. *)
Definition pixel_coordinate (v : Q) : bool :=
  let d := Qabs (v - inject_Z (Qfloor v) - (1 # 2)) in
  Qltb 0 v && Qltb v 10000000 && (Qeq_bool d 0 || Qle_bool (1 # 1000000) d).

Lemma pixel_coordinate_pos (v : Q) : pixel_coordinate v = true -> 0 <= v.
Proof.
  unfold pixel_coordinate. intros Hp.
  apply andb_prop in Hp. destruct Hp as [Hp _].
  apply andb_prop in Hp. destruct Hp as [Hp _].
  unfold Qltb in Hp. destruct (0 ?= v)%Q eqn:Ec; try discriminate Hp.
  apply Qlt_alt in Ec. now apply Qlt_le_weak.
Qed.


(** A snapshot with one checker at (120.4, 339.6). *)
Definition one_checker : game_state :=
  {| checkers := Some [ {| checker_x := Some (1204 # 10);
                           checker_y := Some (3396 # 10) |} ];
     dice := None;
     cube := None |}.


(** *** The handler *)

Definition post (gs : game_state) (sent : string) : request :=
  {| request_method := "POST";
     data := Some {| gameState := Some gs; timestamp := Some sent |} |}.

Lemma save_move_valid (env : environment) (req : request) (file : string)
    (gs : game_state) :
  request_method req = "POST" -> validate (data req) = Some gs ->
  save_move env req file =
  match file_put_contents env file (implode (serialize (now env) gs)) with
  | Some file' =>
      ({| status := 200;
          body := SuccessBody (List.length (serialize (now env) gs)) (now env) |},
       file')
  | None =>
      ({| status := 500;
          body := ServerErrorBody "Server error" "Failed to write to log file" |},
       file)
  end.
Proof.
  intros Hm Hv. unfold save_move. rewrite Hm, Hv. cbn [String.eqb negb].
  assert (E : is_empty (serialize (now env) gs) = false).
  { rewrite serialize_sections.
    destruct (checkers_section (now env) gs); [|reflexivity].
    destruct (dice_section (now env) gs); [|reflexivity].
    destruct (cube_section (now env) gs); reflexivity. }
  rewrite E. reflexivity.
Qed.




(** C6.  A request whose body does not decode, or whose decoded body has no
    [gameState] or no [timestamp], is answered with a 4xx status (400 when
    the method is POST, 405 otherwise) and leaves the log as it was,
    whether or not the disk would have accepted a write. *)
Theorem invalid_submission_rejected (env : environment) (req : request)
    (file : string) :
  data req = None \/
  (exists s, data req = Some s /\ (gameState s = None \/ timestamp s = None)) ->
  (400 <= status (fst (save_move env req file)) < 500)%nat /\
  snd (save_move env req file) = file /\
  (request_method req = "POST" ->
   fst (save_move env req file) =
   {| status := 400; body := ErrorBody "Invalid data format" |}).
Proof.
  intros Hinv.
  assert (Hv : validate (data req) = None).
  { destruct Hinv as [-> | [s [-> Hs]]]; [reflexivity|].
    unfold validate.
    destruct Hs as [-> | ->]; [reflexivity|].
    now destruct (gameState s). }
  unfold save_move. rewrite Hv.
  destruct (String.eqb (request_method req) "POST") eqn:Em; cbn [negb fst snd status].
  - repeat split; lia.
  - repeat split; try lia.
    intros Hm. rewrite Hm in Em. discriminate Em.
Qed.

Lemma invalid_submission_rejected_witness :
  (400 <= status (fst (save_move {| now := "2025-10-26 15:22:41"; write_ok := true |}
                         {| request_method := "POST";
                            data := Some {| gameState := Some one_checker;
                                            timestamp := None |} |}
                         "old")) < 500)%nat /\
  snd (save_move {| now := "2025-10-26 15:22:41"; write_ok := true |}
         {| request_method := "POST";
            data := Some {| gameState := Some one_checker;
                            timestamp := None |} |}
         "old") = "old" /\
  ("POST" = "POST" ->
   fst (save_move {| now := "2025-10-26 15:22:41"; write_ok := true |}
          {| request_method := "POST";
             data := Some {| gameState := Some one_checker;
                             timestamp := None |} |}
          "old") =
   {| status := 400; body := ErrorBody "Invalid data format" |}).
Proof.
  apply (invalid_submission_rejected
           {| now := "2025-10-26 15:22:41"; write_ok := true |}
           {| request_method := "POST";
              data := Some {| gameState := Some one_checker;
                              timestamp := None |} |}
           "old").
  right. eexists. split; [reflexivity|]. right. reflexivity.
Defined.

Lemma append_cancel_l (s a b : string) : s ++ a = s ++ b -> a = b.
Proof.
  induction s as [|c s IH]; simpl; intros E.
  - exact E.
  - injection E as E. now apply IH.
Qed.

Lemma header_inj (ts a b : string) : header ts a = header ts b -> a = b.
Proof.
  unfold header. simpl. intros E. injection E as E.
  apply append_cancel_l in E. simpl in E. now injection E.
Qed.

(** A checkers header is none of the other lines the writer produces. *)
Lemma checkers_header_not_elsewhere (ts : string) (gs : game_state) (n : nat) :
  ~ In (checkers_header ts n)
       (dice_section ts gs ++ cube_section ts gs ++ [nl])%list.
Proof.
  intros Hin.
  apply in_app_or in Hin. destruct Hin as [Hin | Hin].
  - unfold dice_section in Hin.
    destruct (dice gs) as [[[r|] [w|]]|]; cbn [red white app] in Hin;
      simpl in Hin;
      repeat (destruct Hin as [Hin | Hin]; [| ]); try contradiction;
      try (apply header_inj in Hin; discriminate Hin);
      try discriminate Hin.
  - apply in_app_or in Hin. destruct Hin as [Hin | Hin].
    + unfold cube_section in Hin.
      destruct (cube gs) as [[[vx|] vy v]|];
        cbn [cube_x cube_y cube_value] in Hin; simpl in Hin;
        repeat (destruct Hin as [Hin | Hin]; [| ]); try contradiction;
        try (apply header_inj in Hin; discriminate Hin);
        try discriminate Hin.
    + simpl in Hin. destruct Hin as [Hin | []]. discriminate Hin.
Qed.

(** A game state with a red die without pip count, a white die with one,
    and a cube without value. *)
Definition no_pips_no_value : game_state :=
  {| checkers := Some [];
     dice := Some {| red := Some {| die_x := 150; die_y := 200;
                                    die_pips := None |};
                     white := Some {| die_x := 170; die_y := 200;
                                      die_pips := Some (SInt 4) |} |};
     cube := Some {| cube_x := Some (50 # 1); cube_y := 300;
                     cube_value := None |} |}.

(** C7.  For a valid POST whose write succeeds, whatever pip counts and
    cube value the game state carries: a die without pip count is logged
    with "?" in the place of the count, a cube (with an x) without value is
    logged with "value: ?", and the response is the success response. *)
Theorem missing_pips_or_value_logged_as_question_mark (env : environment)
    (req : request) (file : string) (gs : game_state) :
  request_method req = "POST" -> validate (data req) = Some gs ->
  write_ok env = true ->
  let logEntries := serialize (now env) gs in
  (forall dd d, dice gs = Some dd -> red dd = Some d -> die_pips d = None ->
     In ("  - Red Die: ? pips at (x:" ++ interpolate_round (die_x d) ++ ", y:"
         ++ interpolate_round (die_y d) ++ ")" ++ nl) logEntries) /\
  (forall dd d, dice gs = Some dd -> white dd = Some d -> die_pips d = None ->
     In ("  - White Die: ? pips at (x:" ++ interpolate_round (die_x d)
         ++ ", y:" ++ interpolate_round (die_y d) ++ ")" ++ nl) logEntries) /\
  (forall c vx, cube gs = Some c -> cube_x c = Some vx -> cube_value c = None ->
     In ("  - Cube at (x:" ++ interpolate_round vx ++ ", y:"
         ++ interpolate_round (cube_y c) ++ "), value: ?" ++ nl) logEntries) /\
  save_move env req file =
  ({| status := 200;
      body := SuccessBody (List.length logEntries) (now env) |},
   file ++ implode logEntries).
Proof.
  intros Hm Hv Hw logEntries. subst logEntries.
  repeat split.
  - intros dd d Hd Hr Hp. rewrite serialize_sections.
    apply in_or_app. right. apply in_or_app. left.
    unfold dice_section. rewrite Hd, Hr.
    right. left. unfold die_line. rewrite Hp. reflexivity.
  - intros dd d Hd Hwh Hp. rewrite serialize_sections.
    apply in_or_app. right. apply in_or_app. left.
    unfold dice_section. rewrite Hd, Hwh.
    right. apply in_or_app. right. left.
    unfold die_line. rewrite Hp. reflexivity.
  - intros c vx Hc Hx Hp. rewrite serialize_sections.
    apply in_or_app. right. apply in_or_app. right. apply in_or_app. left.
    unfold cube_section. rewrite Hc, Hx.
    right. left. unfold cube_line. rewrite Hp. reflexivity.
  - rewrite (save_move_valid env req file gs Hm Hv).
    unfold file_put_contents. rewrite Hw. reflexivity.
Qed.

Lemma missing_pips_or_value_logged_as_question_mark_witness :
  let env := {| now := "2025-10-26 15:22:41"; write_ok := true |} in
  In ("  - Red Die: ? pips at (x:150, y:200)" ++ nl)
     (serialize (now env) no_pips_no_value) /\
  In ("  - Cube at (x:50, y:300), value: ?" ++ nl)
     (serialize (now env) no_pips_no_value) /\
  save_move env (post no_pips_no_value "2025-10-26T15:22:41.000Z") "" =
  ({| status := 200; body := SuccessBody 7 "2025-10-26 15:22:41" |},
   "[2025-10-26 15:22:41] === CHECKERS === (0 found)" ++ nl ++
   "[2025-10-26 15:22:41] === DICE ===" ++ nl ++
   "  - Red Die: ? pips at (x:150, y:200)" ++ nl ++
   "  - White Die: 4 pips at (x:170, y:200)" ++ nl ++
   "[2025-10-26 15:22:41] === DOUBLING CUBE ===" ++ nl ++
   "  - Cube at (x:50, y:300), value: ?" ++ nl ++ nl).
Proof.
  intros env.
  pose proof (missing_pips_or_value_logged_as_question_mark env
                (post no_pips_no_value "2025-10-26T15:22:41.000Z") ""
                no_pips_no_value eq_refl eq_refl eq_refl) as H.
  cbv zeta in H.
  destruct H as [Hred [_ [Hcube Hsave]]].
  split; [|split].
  - exact (Hred _ _ eq_refl eq_refl eq_refl).
  - exact (Hcube _ _ eq_refl eq_refl eq_refl).
  - rewrite Hsave. reflexivity.
Defined.

(** A game state without [checkers] key. *)
Definition no_checkers_key : game_state :=
  {| checkers := None;
     dice := Some {| red := None; white := None |};
     cube := None |}.

(** C9.  For a valid POST the entries are never empty and end with the
    blank line, so the handler always calls [file_put_contents] with them:
    its answer is the success response with [logged >= 1] when the call
    succeeds and the server error when it fails.  Without a [checkers] key
    no entry is a checkers header, and the blank line is still there. *)
Theorem serialized_output_never_empty (env : environment) (req : request)
    (file : string) (gs : game_state) :
  request_method req = "POST" -> validate (data req) = Some gs ->
  let logEntries := serialize (now env) gs in
  logEntries <> [] /\
  last logEntries "" = nl /\
  save_move env req file =
    match file_put_contents env file (implode logEntries) with
    | Some file' =>
        ({| status := 200;
            body := SuccessBody (List.length logEntries) (now env) |}, file')
    | None =>
        ({| status := 500;
            body := ServerErrorBody "Server error"
                      "Failed to write to log file" |}, file)
    end /\
  (forall n ts, body (fst (save_move env req file)) = SuccessBody n ts ->
     (1 <= n)%nat) /\
  (checkers gs = None ->
     (forall n, ~ In (checkers_header (now env) n) logEntries) /\
     In nl logEntries).
Proof.
  intros Hm Hv logEntries.
  assert (Hlast : exists front, logEntries = (front ++ [nl])%list).
  { subst logEntries. rewrite serialize_sections.
    exists (checkers_section (now env) gs ++ dice_section (now env) gs
            ++ cube_section (now env) gs)%list.
    now rewrite <- !app_assoc. }
  destruct Hlast as [front Hfront].
  assert (Hlen : (1 <= List.length logEntries)%nat).
  { rewrite Hfront, length_app. simpl. lia. }
  split; [|split; [|split; [|split]]].
  - intros E. rewrite E in Hlen. simpl in Hlen. lia.
  - rewrite Hfront. apply last_last.
  - apply (save_move_valid env req file gs Hm Hv).
  - intros n ts. rewrite (save_move_valid env req file gs Hm Hv).
    fold logEntries.
    destruct (file_put_contents env file (implode logEntries));
      cbn [fst body]; intros E; [|discriminate E].
    injection E as <- _. exact Hlen.
  - intros Hc. split.
    + intros n. subst logEntries. rewrite serialize_sections.
      unfold checkers_section. rewrite Hc. cbn [app].
      apply checkers_header_not_elsewhere.
    + rewrite Hfront. apply in_or_app. right. now left.
Qed.

Lemma serialized_output_never_empty_witness :
  let env := {| now := "2025-10-26 15:22:41"; write_ok := true |} in
  let logEntries := serialize (now env) no_checkers_key in
  logEntries = ["[2025-10-26 15:22:41] === DICE ===" ++ nl; nl] /\
  save_move env (post no_checkers_key "2025-10-26T15:22:41.000Z") "" =
  ({| status := 200; body := SuccessBody 2 "2025-10-26 15:22:41" |},
   "[2025-10-26 15:22:41] === DICE ===" ++ nl ++ nl) /\
  (forall n, ~ In (checkers_header (now env) n) logEntries).
Proof.
  intros env logEntries.
  pose proof (serialized_output_never_empty env
                (post no_checkers_key "2025-10-26T15:22:41.000Z") ""
                no_checkers_key eq_refl eq_refl) as H.
  cbv zeta in H.
  destruct H as [_ [_ [Hsave [_ Hnone]]]].
  split; [reflexivity|]. split.
  - rewrite Hsave. reflexivity.
  - apply (Hnone eq_refl).
Defined.

End SaveMoveFacts.

(** * Binary64: the rounded product of a draw by six

    [Math.floor(Math.random() * 6)] in the arithmetic of the browser.  The
    product is rounded to binary64; the lemmas below follow the rounding
    of the specification of primitive floats ([SFmul]) to show that it stays
    below 6 for every draw below 1. *)

Module Binary64Facts.

#[local] Open Scope Z_scope.

Lemma iter_pos_nat {A : Type} (f : A -> A) (p : positive) (a : A) :
  SpecFloat.iter_pos f p a = Nat.iter (Pos.to_nat p) f a.
Proof.
  revert a. induction p as [p IH | p IH |]; intros a; simpl SpecFloat.iter_pos.
  - rewrite !IH, Pos2Nat.inj_xI.
    replace (S (2 * Pos.to_nat p))%nat with (Pos.to_nat p + (Pos.to_nat p + 1))%nat by lia.
    rewrite !Nat.iter_add. reflexivity.
  - rewrite !IH, Pos2Nat.inj_xO.
    replace (2 * Pos.to_nat p)%nat with (Pos.to_nat p + Pos.to_nat p)%nat by lia.
    rewrite Nat.iter_add. reflexivity.
  - reflexivity.
Qed.

Lemma shr_1_m (mrs : shr_record) :
  0 <= shr_m mrs ->
  shr_m (shr_1 mrs) = shr_m mrs / 2 /\ shr_r (shr_1 mrs) = Z.odd (shr_m mrs).
Proof.
  destruct mrs as [m r s]. simpl. intros Hm.
  destruct m as [|p|p]; [| |lia].
  - split; reflexivity.
  - destruct p as [p|p|]; simpl shr_m; simpl shr_r; split; try reflexivity.
    + rewrite Pos2Z.inj_xI. apply Z.div_unique with 1; lia.
    + rewrite Pos2Z.inj_xO. apply Z.div_unique with 0; lia.
Qed.

Lemma shr_iter (P : Z) (n : nat) :
  0 <= P ->
  let mrs := Nat.iter n shr_1 {| shr_m := P; shr_r := false; shr_s := false |} in
  shr_m mrs = P / 2 ^ Z.of_nat n /\
  (shr_r mrs = true -> 2 ^ Z.of_nat n <= 2 * (P mod 2 ^ Z.of_nat n)).
Proof.
  intros HP. induction n as [|n IH].
  - simpl. split; [now rewrite Z.div_1_r | discriminate].
  - cbv zeta in IH |- *. rewrite Nat.iter_succ.
    destruct IH as [IHm _].
    set (mrs := Nat.iter n shr_1 _) in *.
    assert (Hpow : 0 < 2 ^ Z.of_nat n) by (apply Z.pow_pos_nonneg; lia).
    assert (Hm0 : 0 <= shr_m mrs).
    { rewrite IHm. apply Z.div_pos; lia. }
    destruct (shr_1_m mrs Hm0) as [E1 E2].
    rewrite Nat2Z.inj_succ, Z.pow_succ_r by lia.
    split.
    + rewrite E1, IHm, Z.div_div by lia. f_equal. lia.
    + rewrite E2, IHm. intros Hodd.
      pose proof (Z.div_mod P (2 ^ Z.of_nat n) ltac:(lia)) as Hd.
      pose proof (Z.mod_pos_bound P (2 ^ Z.of_nat n) Hpow) as Hb.
      set (q := P / 2 ^ Z.of_nat n) in *.
      set (r0 := P mod 2 ^ Z.of_nat n) in *.
      apply Z.odd_spec in Hodd. destruct Hodd as [k Hk].
      assert (Hmod : P mod (2 * 2 ^ Z.of_nat n) = 2 ^ Z.of_nat n + r0).
      { symmetry. apply Z.mod_unique with k; [lia | nia]. }
      rewrite Hmod. lia.
Qed.

(** The record [shr_fexp] starts from at an exact location. *)
Definition exact_record (m : Z) : shr_record :=
  {| shr_m := m; shr_r := false; shr_s := false |}.

Lemma shr_spec (P e0 n : Z) (mrs : shr_record) (e1 : Z) :
  0 <= P ->
  shr (exact_record P) e0 n = (mrs, e1) ->
  let N := Z.max n 0 in
  e1 = e0 + N /\
  shr_m mrs = P / 2 ^ N /\
  (shr_r mrs = true -> 2 ^ N <= 2 * (P mod 2 ^ N)).
Proof.
  intros HP Hshr N. unfold shr in Hshr.
  destruct n as [|p|p].
  - injection Hshr as <- <-. subst N. simpl.
    rewrite Z.div_1_r, Z.add_0_r. repeat split. discriminate.
  - injection Hshr as <- <-. subst N.
    rewrite Z.max_l by lia.
    rewrite iter_pos_nat.
    pose proof (shr_iter P (Pos.to_nat p) HP) as Hi. cbv zeta in Hi.
    rewrite positive_nat_Z in Hi.
    split; [reflexivity | exact Hi].
  - injection Hshr as <- <-. subst N. simpl.
    rewrite Z.div_1_r, Z.add_0_r. repeat split. discriminate.
Qed.

Lemma round_nearest_even_bounds (P N : Z) (mrs : shr_record) :
  0 <= P -> 0 <= N ->
  shr_m mrs = P / 2 ^ N ->
  (shr_r mrs = true -> 2 ^ N <= 2 * (P mod 2 ^ N)) ->
  let m1 := round_nearest_even (shr_m mrs) (loc_of_shr_record mrs) in
  0 <= m1 /\ m1 <= P / 2 ^ N + 1 /\ 2 * m1 * 2 ^ N <= 2 * P + 2 ^ N.
Proof.
  intros HP HN Hm Hr m1.
  assert (Hpow : 0 < 2 ^ N) by (apply Z.pow_pos_nonneg; lia).
  pose proof (Z.div_mod P (2 ^ N) ltac:(lia)) as Hd.
  pose proof (Z.mod_pos_bound P (2 ^ N) Hpow) as Hb.
  assert (Hq : 0 <= P / 2 ^ N) by (apply Z.div_pos; lia).
  subst m1. destruct mrs as [m r s].
  cbn [shr_m shr_r] in Hm, Hr. cbn [shr_m]. subst m.
  set (q := P / 2 ^ N) in *. set (r0 := P mod 2 ^ N) in *.
  set (pw := 2 ^ N) in *.
  clearbody q r0 pw.
  assert (Hup : r = true -> 2 * (q + 1) * pw <= 2 * P + pw).
  { intros Er. specialize (Hr Er). rewrite Hd. ring_simplify. lia. }
  assert (Hdown : 2 * q * pw <= 2 * P + pw).
  { rewrite Hd. ring_simplify. lia. }
  destruct r, s; cbn [loc_of_shr_record round_nearest_even].
  - specialize (Hup eq_refl). lia.
  - specialize (Hup eq_refl). destruct (Z.even q); lia.
  - lia.
  - lia.
Qed.

Lemma digits2_pos_bounds (p : positive) :
  Z.pos p < 2 ^ Z.pos (digits2_pos p) /\ 2 ^ Z.pos (digits2_pos p) <= 2 * Z.pos p.
Proof.
  induction p as [p IH | p IH |]; simpl digits2_pos.
  - rewrite Pos2Z.inj_succ, Z.pow_succ_r by lia. lia.
  - rewrite Pos2Z.inj_succ, Z.pow_succ_r by lia. lia.
  - simpl. lia.
Qed.

Lemma pow2_le_inv (a b : Z) : 0 <= b -> 2 ^ a <= 2 ^ b -> a <= b.
Proof.
  intros Hb H. destruct (Z_le_gt_dec a b) as [|Hgt]; [assumption|].
  exfalso. assert (2 ^ b < 2 ^ a) by (apply Z.pow_lt_mono_r; lia). lia.
Qed.

Lemma mul6_bound (m : positive) (e : Z) :
  bounded prec emax m e = true -> e <= -53 ->
  match SFmul prec emax (S754_finite false m e)
          (S754_finite false 6755399441055744 (-50)) with
  | S754_zero false => True
  | S754_finite false M E => E < 0 /\ Z.pos M < 6 * 2 ^ (- E)
  | _ => False
  end.
Proof.
  intros Hb He.
  unfold bounded, canonical_mantissa, fexp, emin, prec, emax in Hb.
  apply andb_true_iff in Hb. destruct Hb as [Hc _].
  apply Z.eqb_eq in Hc.
  pose proof (digits2_pos_bounds m) as [Hm1 Hm2].
  set (d := Z.pos (digits2_pos m)) in *.
  assert (Hd : d <= 53) by lia.
  assert (Hemin : -1074 <= e) by lia.
  assert (Hm : Z.pos m < 2 ^ 53).
  { apply Z.lt_le_trans with (2 ^ d); [assumption|].
    apply Z.pow_le_mono_r; lia. }
  unfold SFmul, binary_round_aux, shr_fexp. cbn [xorb].
  change (shr_record_of_loc ?x loc_Exact) with (exact_record x).
  set (P := Z.pos (m * 6755399441055744)).
  assert (HP : P = Z.pos m * 6755399441055744) by (subst P; lia).
  assert (HP0 : 0 <= P) by lia.
  change (Zdigits2 P) with (Z.pos (digits2_pos (m * 6755399441055744))).
  pose proof (digits2_pos_bounds (m * 6755399441055744)) as [HdP1 HdP2].
  fold P in HdP1, HdP2.
  set (dP := Z.pos (digits2_pos (m * 6755399441055744))) in *.
  assert (HdP : dP <= 106).
  { destruct (Z_le_gt_dec dP 106) as [|Hgt]; [assumption|].
    exfalso. assert (H107 : 2 ^ 107 <= 2 ^ dP) by (apply Z.pow_le_mono_r; lia).
    change (2 ^ 107) with 162259276829213363391578010288128 in H107.
    change (2 ^ 53) with 9007199254740992 in Hm. lia. }
  set (e0 := e + -50).
  set (n1 := fexp prec emax (dP + e0) - e0).
  destruct (shr (exact_record P) e0 n1) as [mrs1 e1] eqn:Hs1.
  destruct (shr_spec P e0 n1 mrs1 e1 HP0 Hs1) as [He1 [Hq1 Hr1]].
  set (N := Z.max n1 0) in *.
  assert (HN : 0 <= N <= 53 /\ dP - 53 <= N).
  { subst N n1 e0. unfold fexp, emin, prec, emax. lia. }
  destruct (round_nearest_even_bounds P N mrs1 HP0 ltac:(lia) Hq1 Hr1)
    as [Hm1a [Hm1b Hm1c]].
  set (m1 := round_nearest_even (shr_m mrs1) (loc_of_shr_record mrs1)) in *.
  assert (HpowN : 0 < 2 ^ N) by (apply Z.pow_pos_nonneg; lia).
  assert (He1' : e1 <= -50) by (subst e0; lia).
  assert (Hm1d : m1 <= 2 ^ 53).
  { assert (P / 2 ^ N < 2 ^ 53); [|lia].
    apply Z.div_lt_upper_bound; [lia|].
    rewrite <- Z.pow_add_r by lia.
    apply Z.lt_le_trans with (2 ^ dP); [assumption|].
    apply Z.pow_le_mono_r; lia. }
  assert (Hm1e : m1 < 6 * 2 ^ (- e1)).
  { assert (Hsplit : 2 ^ (- e0) = 2 ^ (- e1) * 2 ^ N).
    { rewrite <- Z.pow_add_r by lia. f_equal. lia. }
    assert (H103 : 2 ^ 103 <= 2 ^ (- e0)).
    { apply Z.pow_le_mono_r; subst e0; lia. }
    assert (H53 : 2 ^ N <= 2 ^ 53) by (apply Z.pow_le_mono_r; lia).
    change (2 ^ 103) with 10141204801825835211973625643008 in H103.
    change (2 ^ 53) with 9007199254740992 in H53, Hm.
    assert (0 < 2 ^ (- e1)) by (apply Z.pow_pos_nonneg; lia).
    nia. }
  set (n2 := fexp prec emax (Zdigits2 m1 + e1) - e1).
  destruct (shr (exact_record m1) e1 n2) as [mrs2 e2] eqn:Hs2.
  destruct (shr_spec m1 e1 n2 mrs2 e2 Hm1a Hs2) as [He2 [Hq2 _]].
  set (N2 := Z.max n2 0) in *.
  assert (Hd1 : Zdigits2 m1 <= 54).
  { destruct m1 as [|q|q]; simpl; [lia| |lia].
    pose proof (digits2_pos_bounds q) as [_ Hq].
    apply pow2_le_inv; [lia|].
    change (2 ^ 54) with 18014398509481984.
    change (2 ^ 53) with 9007199254740992 in Hm1d. lia. }
  assert (HN2 : 0 <= N2 /\ e2 < 0).
  { subst N2 n2. unfold fexp, emin, prec, emax in *. lia. }
  rewrite Hq2.
  assert (HM : m1 / 2 ^ N2 < 6 * 2 ^ (- e2)).
  { assert (0 < 2 ^ N2) by (apply Z.pow_pos_nonneg; lia).
    apply Z.div_lt_upper_bound; [assumption|].
    replace (2 ^ N2 * (6 * 2 ^ (- e2))) with (6 * 2 ^ (- e1)); [assumption|].
    replace (- e1) with (N2 + - e2) by lia.
    rewrite Z.pow_add_r by lia. ring. }
  assert (0 <= m1 / 2 ^ N2) by (apply Z.div_pos; [lia | apply Z.pow_pos_nonneg; lia]).
  destruct (m1 / 2 ^ N2) as [|M|M]; [exact I| |lia].
  assert (Hle : (e2 <=? emax - prec) = true).
  { apply Z.leb_le. unfold emax, prec. lia. }
  rewrite Hle. split; [lia | assumption].
Qed.

Lemma compare_cont_lt (m q : positive) :
  Pos.compare_cont Eq m q = Lt -> Z.pos m < Z.pos q.
Proof. intros Em. exact Em. Qed.

Lemma unit_interval_spec (u : float) :
  (0 <=? u)%float = true -> (u <? 1)%float = true ->
  (exists s, Prim2SF u = S754_zero s) \/
  (exists m e, Prim2SF u = S754_finite false m e /\
               bounded prec emax m e = true /\ e <= -53).
Proof.
  rewrite leb_spec, ltb_spec.
  change (Prim2SF 0) with (S754_zero false).
  change (Prim2SF 1) with (S754_finite false 4503599627370496 (-52)).
  pose proof (Prim2SF_valid u) as Hv.
  destruct (Prim2SF u) as [s | s | | s m e].
  - intros _ _. left. now exists s.
  - destruct s; discriminate.
  - discriminate.
  - destruct s; [discriminate|].
    intros _ Hlt. right. exists m, e.
    unfold valid_binary in Hv.
    split; [reflexivity | split; [assumption|]].
    unfold SFltb, SFcompare in Hlt.
    destruct (e ?= -52) eqn:Ec; try discriminate Hlt.
    + exfalso. apply Z.compare_eq in Ec. subst e.
      unfold bounded, canonical_mantissa, fexp, emin, prec, emax in Hv.
      apply andb_true_iff in Hv. destruct Hv as [Hc _].
      apply Z.eqb_eq in Hc.
      pose proof (digits2_pos_bounds m) as [_ Hm2].
      assert (Hd : Z.pos (digits2_pos m) = 53) by lia.
      rewrite Hd in Hm2. change (2 ^ 53) with 9007199254740992 in Hm2.
      destruct (Pos.compare_cont Eq m 4503599627370496) eqn:Em;
        try discriminate Hlt.
      apply compare_cont_lt in Em. clear - Em Hm2. lia.
    + change (e < -52) in Ec. lia.
Qed.

Lemma add_one_after_zero (v : float) (s : bool) :
  Prim2SF v = S754_zero s -> (v + 1 = 1)%float.
Proof.
  intros Hv.
  rewrite <- (SF2Prim_Prim2SF (v + 1)), add_spec, Hv.
  reflexivity.
Qed.

Lemma floor_mul6 (u : float) :
  (0 <=? u)%float = true -> (u <? 1)%float = true ->
  exists j : Z, 0 <= j <= 5 /\
    (Binary64.floor (u * Binary64.of_Z 6) + Binary64.of_Z 1
     = Binary64.of_Z (j + 1))%float.
Proof.
  intros H0 H1.
  change (Binary64.of_Z 6) with 6%float.
  change (Binary64.of_Z 1) with 1%float.
  pose proof (mul_spec u 6) as Hmul.
  change (Prim2SF 6) with (S754_finite false 6755399441055744 (-50)) in Hmul.
  unfold SF64mul in Hmul.
  assert (Hres : match Prim2SF (u * 6) with
                 | S754_zero _ => True
                 | S754_finite false M E => E < 0 /\ Z.pos M < 6 * 2 ^ (- E)
                 | _ => False
                 end).
  { rewrite Hmul.
    destruct (unit_interval_spec u H0 H1) as [[s ->] | [m [e [-> [Hb He]]]]].
    - exact I.
    - pose proof (mul6_bound m e Hb He) as Hm.
      destruct (SFmul prec emax (S754_finite false m e)
                  (S754_finite false 6755399441055744 (-50)))
        as [[|] | | | [|] M E]; try contradiction; exact Hm || exact I. }
  unfold Binary64.floor.
  destruct (Prim2SF (u * 6)) as [s | | | [|] M E] eqn:Hp; try contradiction.
  - exists 0. split; [lia|].
    apply (add_one_after_zero _ s Hp).
  - destruct Hres as [HE HM].
    assert (Hneg : (0 <=? E) = false) by (apply Z.leb_gt; exact HE).
    rewrite Hneg, Z.shiftr_div_pow2 by lia.
    assert (Hpow : 0 < 2 ^ (- E)) by (apply Z.pow_pos_nonneg; lia).
    assert (Hj : 0 <= Z.pos M / 2 ^ (- E) <= 5).
    { split; [apply Z.div_pos; lia|].
      assert (Z.pos M / 2 ^ (- E) < 6); [|lia].
      apply Z.div_lt_upper_bound; lia. }
    exists (Z.pos M / 2 ^ (- E)). split; [exact Hj|].
    set (j := Z.pos M / 2 ^ (- E)) in *. clearbody j.
    assert (Hc : j = 0 \/ j = 1 \/ j = 2 \/ j = 3 \/ j = 4 \/ j = 5) by lia.
    destruct Hc as [-> | [-> | [-> | [-> | [-> | ->]]]]]; reflexivity.
Qed.

End Binary64Facts.

(** * Properties of the other detection functions *)

Module DetectorMoreFacts.

Import Detector DetectorMore.

(** [Math.floor(u * 6) + 1] for a draw [u]. *)
Definition pips_of {num : Type} `{JSNumber num} (u : num) : num :=
  js_add (js_floor (js_mul u (js_int 6))) (js_int 1).

(** The test a circle passes to become a die. *)
Definition accepted_die {num : Type} `{JSNumber num} (canvas : canvas_t num)
    (d : die num) : Prop :=
  js_lt (js_int 0) (die_x d) = true /\
  js_lt (js_int 0) (die_y d) = true /\
  js_lt (die_x d) (width canvas) = true /\
  js_lt (die_y d) (height canvas) = true /\
  js_lt (die_radius d) (js_int 25) = true.

(** A draw of [Math.random()] lies in [0, 1). *)
Definition unit_draw (u : float) : Prop :=
  (0 <=? u)%float = true /\ (u <? 1)%float = true.

Lemma pips_of_binary64 (u : float) :
  unit_draw u ->
  exists k : Z, (1 <= k <= 6)%Z /\ pips_of u = Binary64.of_Z k.
Proof.
  intros [H0 H1].
  destruct (Binary64Facts.floor_mul6 u H0 H1) as [j [Hj E]].
  exists (j + 1)%Z. split; [lia | exact E].
Qed.

(** X1.  In binary64, for every draw u of [Math.random()] with
    0 <= u < 1, [detectDicePips] returns one of the floats 1, 2, ..., 6,
    whatever its three arguments. *)
Theorem dice_pips_binary64 (centerX centerY diceRadius : float)
    (g : rng float) :
  unit_draw (g 0%nat) ->
  exists k : Z,
    (1 <= k <= 6)%Z /\
    fst (detectDicePips centerX centerY diceRadius g) = Binary64.of_Z k.
Proof.
  intros Hu. exact (pips_of_binary64 (g 0%nat) Hu).
Qed.

Lemma dice_pips_binary64_witness :
  exists k : Z,
    (1 <= k <= 6)%Z /\
    fst (detectDicePips 150 200 12
           (DetectorFacts.constant_rng 0x1.fffffffffffffp-1))%float
    = Binary64.of_Z k.
Proof.
  apply (dice_pips_binary64 150 200 12
           (DetectorFacts.constant_rng 0x1.fffffffffffffp-1)%float).
  split; reflexivity.
Defined.

Section DiceLoop.
Context {num : Type} `{JSNumber num}.
Variable canvas : canvas_t num.
Variable circle : list num.

Lemma dice_step_cases (i : nat) (dice : list (die num)) (g : rng num) :
  dice_step canvas circle i (dice, g) = (dice, g) \/
  exists d,
    dice_step canvas circle i (dice, g) = (dice ++ [d], fun n => g (S n)) /\
    accepted_die canvas d /\ die_pips d = pips_of (g O).
Proof.
  unfold dice_step.
  destruct (nth_error circle (i * 3)) as [x0|]; [|now left].
  destruct (nth_error circle (i * 3 + 1)) as [y0|]; [|now left].
  destruct (nth_error circle (i * 3 + 2)) as [radius|]; [|now left].
  destruct (js_lt (js_int 0) x0) eqn:E1; [|now left].
  destruct (js_lt (js_int 0) y0) eqn:E2; [|now left].
  destruct (js_lt x0 (width canvas)) eqn:E3; [|now left].
  destruct (js_lt y0 (height canvas)) eqn:E4; [|now left].
  destruct (js_lt radius (js_int 25)) eqn:E5; [|now left].
  right. cbn [andb].
  eexists. split; [reflexivity|].
  split; [|reflexivity].
  repeat split; assumption.
Qed.

Lemma dice_loop_spec (steps i : nat) (dice : list (die num)) (g : rng num) :
  exists new,
    fst (dice_loop canvas circle i steps (dice, g)) = dice ++ new /\
    (List.length new <= steps)%nat /\
    Forall (accepted_die canvas) new /\
    (forall n,
       snd (dice_loop canvas circle i steps (dice, g)) n
       = g (List.length new + n)%nat) /\
    (forall k d, nth_error new k = Some d -> die_pips d = pips_of (g k)).
Proof.
  revert i dice g.
  induction steps as [|steps IH]; intros i dice g.
  - exists []. simpl. rewrite app_nil_r.
    repeat split; auto.
    intros k d Hk. destruct k; discriminate Hk.
  - cbn [dice_loop].
    destruct (dice_step_cases i dice g) as [-> | [d [-> [Hacc Hp]]]].
    + destruct (IH (S i) dice g) as [new [E [Hlen [Hall [Hg Hpips]]]]].
      exists new. repeat split; auto.
    + destruct (IH (S i) (dice ++ [d]) (fun n => g (S n)))
        as [new [E [Hlen [Hall [Hg Hpips]]]]].
      exists (d :: new).
      split; [rewrite <- app_assoc in E; exact E|].
      split; [simpl; lia|].
      split; [constructor; assumption|].
      split.
      * intros n. exact (Hg n).
      * intros k d' Hk. destruct k as [|k].
        -- injection Hk as <-. exact Hp.
        -- apply (Hpips k d' Hk).
Qed.

End DiceLoop.

(** X2.  Every die [detectDice] keeps lies strictly inside the frame and
    has a radius below 25, and there are at most as many dice as rows in
    the circle matrix. *)
Theorem detected_dice_accepted :
  forall (num : Type) (N : JSNumber num) (canvas : canvas_t num)
         (diceCircles : mat num) (g : rng num),
    let dice := fst (detected_dice canvas diceCircles g) in
    Forall (accepted_die canvas) dice /\
    (List.length dice <= rows diceCircles)%nat.
Proof.
  intros num N canvas diceCircles g dice. subst dice.
  unfold detected_dice.
  destruct (dice_loop_spec canvas (data32F diceCircles) (rows diceCircles)
              0 [] g) as [new [E [Hlen [Hall _]]]].
  rewrite E. cbn [app]. split; assumption.
Qed.

(** X3.  [detectDice] calls [Math.random()] exactly once per die it keeps,
    in detection order: die number k carries [Math.floor(u * 6) + 1] for
    draw number k, and the generator is left advanced by the number of
    dice. *)
Theorem detected_dice_draws :
  forall (num : Type) (N : JSNumber num) (canvas : canvas_t num)
         (diceCircles : mat num) (g : rng num),
    let dice := fst (detected_dice canvas diceCircles g) in
    let g' := snd (detectDice canvas diceCircles g) in
    (forall k d, nth_error dice k = Some d -> die_pips d = pips_of (g k)) /\
    (forall n, g' n = g (List.length dice + n)%nat).
Proof.
  intros num N canvas diceCircles g dice g'. subst dice g'.
  unfold detectDice.
  destruct (detected_dice canvas diceCircles g) as [dice g1] eqn:Ed.
  cbn [fst snd].
  unfold detected_dice in Ed.
  destruct (dice_loop_spec canvas (data32F diceCircles) (rows diceCircles)
              0 [] g) as [new [E [_ [_ [Hg Hp]]]]].
  rewrite Ed in E, Hg. cbn [fst snd app] in E, Hg. subst new.
  split; assumption.
Qed.

(** X4.  In binary64, when every draw of [Math.random()] lies in [0, 1),
    every die [detectDice] keeps, and so the red and the white die it
    reports, carries a pip count among 1, ..., 6. *)
Theorem detected_dice_pips_binary64 (canvas : canvas_t float)
    (diceCircles : mat float) (g : rng float) :
  (forall n, unit_draw (g n)) ->
  let in_range (d : die float) :=
    exists k : Z, (1 <= k <= 6)%Z /\ die_pips d = Binary64.of_Z k in
  Forall in_range (fst (detected_dice canvas diceCircles g)) /\
  (forall d, red (fst (detectDice canvas diceCircles g)) = Some d ->
             in_range d) /\
  (forall d, white (fst (detectDice canvas diceCircles g)) = Some d ->
             in_range d).
Proof.
  intros Hg in_range.
  assert (Hall : Forall in_range (fst (detected_dice canvas diceCircles g))).
  { unfold detected_dice.
    destruct (dice_loop_spec canvas (data32F diceCircles) (rows diceCircles)
                0 [] g) as [new [E [_ [_ [_ Hp]]]]].
    rewrite E. cbn [app].
    apply Forall_forall. intros d Hin.
    destruct (In_nth_error _ _ Hin) as [k Hk].
    subst in_range. cbv beta. rewrite (Hp k d Hk).
    apply pips_of_binary64, Hg. }
  split; [exact Hall|].
  unfold detectDice.
  destruct (detected_dice canvas diceCircles g) as [dice g1].
  cbn [fst red white] in *.
  rewrite Forall_forall in Hall.
  split; intros d Hd; apply Hall; eapply nth_error_In; exact Hd.
Qed.

Lemma detected_dice_pips_binary64_witness :
  let in_range (d : die float) :=
    exists k : Z, (1 <= k <= 6)%Z /\ die_pips d = Binary64.of_Z k in
  Forall in_range
    (fst (detected_dice DetectorFacts.hd_canvas DetectorFacts.two_circles
            (DetectorFacts.constant_rng 0.4%float))).
Proof.
  intros in_range.
  apply (detected_dice_pips_binary64 DetectorFacts.hd_canvas
           DetectorFacts.two_circles (DetectorFacts.constant_rng 0.4%float)).
  intros n. split; reflexivity.
Defined.

(** A well-formed circle matrix: the triples [x, y, radius] of its rows,
    one after the other. *)
Definition flatten3 {A : Type} (ts : list (A * A * A)) : list A :=
  flat_map (fun t => [fst (fst t); snd (fst t); snd t]) ts.

Definition matrix_of {num : Type} (ts : list (num * num * num)) : mat num :=
  {| rows := List.length ts; data32F := flatten3 ts |}.

Section CheckersLoop.
Context {num : Type} `{JSNumber num}.
Variable canvas : canvas_t num.

Lemma checkers_step_app (circle : list num) (i : nat)
    (acc : list (checker num)) :
  checkers_step canvas circle i acc
  = acc ++ checkers_step canvas circle i [].
Proof.
  unfold checkers_step.
  destruct (nth_error circle (i * 3)); [|now rewrite app_nil_r].
  destruct (nth_error circle (i * 3 + 1)); [|now rewrite app_nil_r].
  destruct (_ && _); [reflexivity | now rewrite app_nil_r].
Qed.

Lemma checkers_loop_app (circle : list num) (steps i : nat)
    (acc : list (checker num)) :
  checkers_loop canvas circle i steps acc
  = acc ++ checkers_loop canvas circle i steps [].
Proof.
  revert i acc. induction steps as [|steps IH]; intros i acc; simpl.
  - now rewrite app_nil_r.
  - rewrite IH, (IH _ (checkers_step canvas circle i [])).
    rewrite (checkers_step_app circle i acc), app_assoc. reflexivity.
Qed.

Lemma checkers_loop_shift (a b c : num) (circle : list num) (steps i : nat)
    (acc : list (checker num)) :
  checkers_loop canvas (a :: b :: c :: circle) (S i) steps acc
  = checkers_loop canvas circle i steps acc.
Proof.
  revert i acc. induction steps as [|steps IH]; intros i acc.
  - reflexivity.
  - cbn [checkers_loop]. rewrite IH. reflexivity.
Qed.

Lemma detectCheckers_rows (ts : list (num * num * num)) :
  detectCheckers canvas (matrix_of ts)
  = map (fun t => {| checker_x := fst (fst t); checker_y := snd (fst t);
                     checker_radius := Some (snd t) |})
        (filter (fun t => in_frame canvas (fst (fst t)) (snd (fst t))) ts).
Proof.
  unfold detectCheckers, matrix_of. cbn [rows data32F].
  induction ts as [|[[a b] c] ts IH].
  - reflexivity.
  - cbn [List.length flatten3 flat_map app checkers_loop fst snd filter].
    fold (flatten3 ts).
    rewrite checkers_loop_shift, checkers_loop_app, IH.
    unfold checkers_step, in_frame. cbn [nth_error Nat.mul Nat.add app].
    destruct (_ && _); reflexivity.
Qed.

End CheckersLoop.

(** X5.  On a circle matrix of [n] rows, [detectCheckers] returns exactly
    the circles whose centre lies strictly inside the frame
    (0 < x < width and 0 < y < height), in matrix order, each with its own
    radius; in particular never more than [n], and all of them when all
    centres are inside. *)
Theorem detectCheckers_keeps_circles_in_frame :
  forall (num : Type) (N : JSNumber num) (canvas : canvas_t num)
         (ts : list (num * num * num)),
    let inside (t : num * num * num) :=
      in_frame canvas (fst (fst t)) (snd (fst t)) in
    let checkers := detectCheckers canvas (matrix_of ts) in
    map (fun c => (checker_x c, checker_y c, checker_radius c)) checkers
    = map (fun t => (fst (fst t), snd (fst t), Some (snd t)))
          (filter inside ts) /\
    (List.length checkers <= List.length ts)%nat /\
    (forallb inside ts = true -> List.length checkers = List.length ts).
Proof.
  intros num N canvas ts inside checkers. subst checkers.
  rewrite detectCheckers_rows. fold inside.
  split; [|split].
  - rewrite map_map. reflexivity.
  - rewrite length_map. apply filter_length_le.
  - intros Hall. rewrite length_map. f_equal.
    apply forallb_filter_id. exact Hall.
Qed.

(** C8.  [detectCubeValue] returns the number 1 at every position, in any
    arithmetic.  [detectDicePips] reads nothing of its three arguments: it
    takes exactly one draw u of [Math.random()] and returns
    [Math.floor(u * 6) + 1].  In binary64 this is one of the integers
    1, ..., 6 for every draw u with 0 <= u < 1, and each of the six is
    returned for some draw. *)
Theorem placeholder_cube_value_and_random_pips :
  (forall (num : Type) (N : JSNumber num) (x0 y0 : num),
     detectCubeValue x0 y0 = js_int 1)
  /\
  (forall (num : Type) (N : JSNumber num) (centerX centerY diceRadius : num)
          (g : rng num),
     detectDicePips centerX centerY diceRadius g
     = (js_add (js_floor (js_mul (g O) (js_int 6))) (js_int 1),
        fun n => g (S n)))
  /\
  (forall (centerX centerY diceRadius : float) (g : rng float),
     unit_draw (g O) ->
     exists k : Z,
       (1 <= k <= 6)%Z /\
       fst (detectDicePips centerX centerY diceRadius g) = Binary64.of_Z k)
  /\
  (forall k : Z, (1 <= k <= 6)%Z ->
     exists u : float,
       unit_draw u /\
       forall (centerX centerY diceRadius : float) (g : rng float),
         g O = u ->
         fst (detectDicePips centerX centerY diceRadius g) = Binary64.of_Z k).
Proof.
  split; [reflexivity|].
  split; [reflexivity|].
  split.
  - intros centerX centerY diceRadius g Hu.
    exact (pips_of_binary64 (g O) Hu).
  - intros k Hk.
    assert (Hc : (k = 1 \/ k = 2 \/ k = 3 \/ k = 4 \/ k = 5 \/ k = 6)%Z)
      by lia.
    destruct Hc as [-> | [-> | [-> | [-> | [-> | ->]]]]].
    + exists 0%float. split; [split; reflexivity|].
      intros cx cy r g E. unfold detectDicePips, Math_random. cbn [fst].
      rewrite E. vm_compute. reflexivity.
    + exists 0.2%float. split; [split; reflexivity|].
      intros cx cy r g E. unfold detectDicePips, Math_random. cbn [fst].
      rewrite E. vm_compute. reflexivity.
    + exists 0.4%float. split; [split; reflexivity|].
      intros cx cy r g E. unfold detectDicePips, Math_random. cbn [fst].
      rewrite E. vm_compute. reflexivity.
    + exists 0.5%float. split; [split; reflexivity|].
      intros cx cy r g E. unfold detectDicePips, Math_random. cbn [fst].
      rewrite E. vm_compute. reflexivity.
    + exists 0.7%float. split; [split; reflexivity|].
      intros cx cy r g E. unfold detectDicePips, Math_random. cbn [fst].
      rewrite E. vm_compute. reflexivity.
    + exists 0x1.fffffffffffffp-1%float. split; [split; reflexivity|].
      intros cx cy r g E. unfold detectDicePips, Math_random. cbn [fst].
      rewrite E. vm_compute. reflexivity.
Qed.

Lemma placeholder_cube_value_and_random_pips_witness :
  exists k : Z,
    (1 <= k <= 6)%Z /\
    fst (detectDicePips 150 200 12 (fun n => Binary64.of_Z 1 / Binary64.of_Z (Z.of_nat n + 3)))%float
    = Binary64.of_Z k.
Proof.
  apply (proj1 (proj2 (proj2 placeholder_cube_value_and_random_pips))
           150 200 12
           (fun n => Binary64.of_Z 1 / Binary64.of_Z (Z.of_nat n + 3)))%float.
  split; reflexivity.
Defined.

(** The circle of a die, and the test of [detectDice] on a circle
    [(x, y, radius)]: centre strictly inside the frame, radius below 25. *)
Definition die_circle {num : Type} (d : die num) : num * num * num :=
  (die_x d, die_y d, die_radius d).

Definition passes_dice_test {num : Type} `{JSNumber num}
    (canvas : canvas_t num) (t : num * num * num) : bool :=
  js_lt (js_int 0) (fst (fst t)) && js_lt (js_int 0) (snd (fst t))
  && js_lt (fst (fst t)) (width canvas) && js_lt (snd (fst t)) (height canvas)
  && js_lt (snd t) (js_int 25).

Section DiceRows.
Context {num : Type} `{JSNumber num}.
Variable canvas : canvas_t num.

Lemma dice_loop_shift (a b c : num) (circle : list num) (steps i : nat)
    (st : list (die num) * rng num) :
  dice_loop canvas (a :: b :: c :: circle) (S i) steps st
  = dice_loop canvas circle i steps st.
Proof.
  revert i st. induction steps as [|steps IH]; intros i st.
  - reflexivity.
  - cbn [dice_loop]. rewrite IH. reflexivity.
Qed.

Lemma dice_loop_rows (ts : list (num * num * num)) (acc : list (die num))
    (g : rng num) :
  map die_circle
    (fst (dice_loop canvas (flatten3 ts) 0 (List.length ts) (acc, g)))
  = (map die_circle acc ++ filter (passes_dice_test canvas) ts)%list.
Proof.
  revert acc g.
  induction ts as [|[[a b] c] ts IH]; intros acc g.
  - cbn. now rewrite app_nil_r.
  - cbn [List.length flatten3 flat_map app dice_loop fst snd filter].
    fold (flatten3 ts).
    rewrite dice_loop_shift.
    unfold dice_step, passes_dice_test.
    cbn [nth_error Nat.mul Nat.add fst snd].
    destruct (_ && _).
    + unfold detectDicePips, Math_random.
      rewrite IH, map_app, <- app_assoc. reflexivity.
    + rewrite IH. reflexivity.
Qed.

Lemma detected_dice_rows (ts : list (num * num * num)) (g : rng num) :
  map die_circle (fst (detected_dice canvas (matrix_of ts) g))
  = filter (passes_dice_test canvas) ts.
Proof.
  unfold detected_dice, matrix_of. cbn [rows data32F].
  now rewrite dice_loop_rows.
Qed.

End DiceRows.



Lemma Qltb_lt (a b : Q) : Qltb a b = true <-> a < b.
Proof.
  unfold Qltb. rewrite Qlt_alt.
  destruct (a ?= b)%Q; split; congruence.
Qed.

Lemma Qltb_ge (a b : Q) : Qltb a b = false -> b <= a.
Proof.
  intros E. apply Qnot_lt_le. intros Hlt.
  apply Qltb_lt in Hlt. congruence.
Qed.

(** The tests a contour has to pass to become the cube, the comparison
    with [maxArea] apart. *)
Definition cube_candidate (c : contour Q) : bool :=
  Qltb 1000 (area c) && Qltb (area c) 10000
  && (4 <=? approx_rows c)%nat && (approx_rows c <=? 6)%nat
  && negb (Qeq_bool (m00 c) 0).

(** The cube built from a contour: its centroid, area and value 1. *)
Definition cube_of (c : contour Q) : cube Q :=
  {| cube_x := m10 c / m00 c; cube_y := m01 c / m00 c;
     cube_area := area c; cube_value := 1 |}.

Definition cube_invariant (seen : list (contour Q))
    (st : option (cube Q) * Q) : Prop :=
  match fst st with
  | None =>
      snd st = 0 /\ forall c, In c seen -> cube_candidate c = false
  | Some best =>
      exists c, In c seen /\ cube_candidate c = true /\ best = cube_of c /\
                snd st = area c /\
                forall c', In c' seen -> cube_candidate c' = true ->
                           area c' <= area c
  end.

Lemma cube_step_invariant (seen : list (contour Q))
    (st : option (cube Q) * Q) (c : contour Q) :
  cube_invariant seen st -> cube_invariant (seen ++ [c]) (cube_step st c).
Proof.
  destruct st as [best maxArea].
  unfold cube_invariant, cube_step, cube_candidate. cbn [fst snd js_lt js_eq
    js_int js_div exact_number exact_equality].
  change (inject_Z 1000) with 1000. change (inject_Z 10000) with 10000.
  change (inject_Z 0) with 0.
  intros Hinv.
  destruct (Qltb 1000 (area c)) eqn:E1; cbn [andb];
    [destruct (Qltb (area c) 10000) eqn:E2; cbn [andb];
     [destruct (4 <=? approx_rows c)%nat eqn:E3; cbn [andb];
      [destruct (approx_rows c <=? 6)%nat eqn:E4; cbn [andb];
       [destruct (Qeq_bool (m00 c) 0) eqn:E5; cbn [negb andb]| ]| ]| ]| ].
  all: try (destruct (Qltb maxArea (area c)) eqn:E6; cbn [fst snd andb]).
  all: cbn [fst snd].
  all: try solve [
    destruct best as [b|];
    [ destruct Hinv as [c0 [Hin [Hc [Hb [Hm Hmax]]]]];
      exists c0; repeat split; auto using in_or_app;
      intros c' Hin' Hc'; apply in_app_or in Hin';
      destruct Hin' as [Hin' | [<- | []]];
      [ now apply Hmax
      | rewrite ?E1, ?E2, ?E3, ?E4, ?E5 in Hc'; cbn in Hc';
        try discriminate Hc'; rewrite <- Hm; now apply Qltb_ge ]
    | destruct Hinv as [Hm Hnone]; split; [exact Hm|];
      intros c' Hin'; apply in_app_or in Hin';
      destruct Hin' as [Hin' | [<- | []]];
      [ now apply Hnone
      | rewrite ?E1, ?E2, ?E3, ?E4, ?E5; cbn; try reflexivity;
        exfalso; subst maxArea; apply Qltb_lt in E1; apply Qltb_ge in E6;
        lra ] ] ].
  (* the contour becomes the cube *)
  exists c. apply Qltb_lt in E6.
  split; [apply in_or_app; right; now left|].
  split; [rewrite E1, E2, E3, E4, E5; reflexivity|].
  split; [reflexivity|]. split; [reflexivity|].
  intros c' Hin' Hc'. apply in_app_or in Hin'.
  destruct Hin' as [Hin' | [<- | []]]; [|apply Qle_refl].
  destruct best as [b|].
  - destruct Hinv as [c0 [_ [_ [_ [Hm Hmax]]]]].
    apply Qle_trans with (area c0); [now apply Hmax|].
    rewrite <- Hm. now apply Qlt_le_weak.
  - destruct Hinv as [_ Hnone]. rewrite (Hnone c' Hin') in Hc'.
    discriminate Hc'.
Qed.

Lemma cube_loop_invariant (rest seen : list (contour Q))
    (st : option (cube Q) * Q) :
  cube_invariant seen st ->
  cube_invariant (seen ++ rest) (fold_left cube_step rest st).
Proof.
  revert seen st. induction rest as [|c rest IH]; intros seen st Hinv.
  - now rewrite app_nil_r.
  - cbn [fold_left].
    replace (seen ++ c :: rest) with ((seen ++ [c]) ++ rest)
      by (now rewrite <- app_assoc).
    apply IH, cube_step_invariant, Hinv.
Qed.

(** X6.  In exact arithmetic, [detectDoublingCube] returns the object
    without position exactly when no contour has an area strictly between
    1000 and 10000, 4 to 6 polygon vertices and a non-zero m00; otherwise it
    returns the cube of such a contour of largest area: its centroid
    (m10/m00, m01/m00), its area and the value 1. *)
Theorem detectDoublingCube_largest_candidate (contours : list (contour Q)) :
  match detectDoublingCube contours with
  | None => forall c, In c contours -> cube_candidate c = false
  | Some best =>
      exists c, In c contours /\ cube_candidate c = true /\
                best = cube_of c /\
                forall c', In c' contours -> cube_candidate c' = true ->
                           area c' <= area c
  end.
Proof.
  unfold detectDoublingCube.
  assert (Hinit : cube_invariant [] (None, js_int 0)).
  { split; [reflexivity | intros c []]. }
  pose proof (cube_loop_invariant contours [] _ Hinit) as Hinv.
  cbn [app] in Hinv. unfold cube_invariant in Hinv.
  destruct (fst (fold_left cube_step contours (None, js_int 0))) as [best|].
  - destruct Hinv as [c [Hin [Hc [Hb [_ Hmax]]]]].
    exists c. repeat split; assumption.
  - exact (proj2 Hinv).
Qed.

(** X7.  On the regions of [detectBoardRegions], [drawBoardRegions] strokes
    eight circles of radius 15: those of the points 1, 4, 7, 10 of the top
    row and 13, 16, 19, 22 of the bottom row, that is the columns 0, 3, 6
    and 9 of each row. *)
Theorem drawBoardRegions_every_third_point :
  forall (num : Type) (N : JSNumber num) (W H : num),
    let regionWidth := js_div W (js_int 12) in
    let column k :=
      js_add (js_mul regionWidth (of_nat k)) (js_div regionWidth (js_int 2)) in
    drawBoardRegions (detectBoardRegions {| width := W; height := H |})
    = map (fun k => (column k, js_mul H js_0_1, js_int 15)) [0; 3; 6; 9]%nat
      ++ map (fun k => (column k, js_mul H js_0_9, js_int 15))
             [0; 3; 6; 9]%nat.
Proof.
  intros num N W H regionWidth column.
  rewrite DetectorFacts.detectBoardRegions_rows.
  reflexivity.
Qed.

End DetectorMoreFacts.

(** * Further properties of the log writer *)

Module SaveMoveMoreFacts.

Import SaveMove SaveMoveFacts.
#[local] Open Scope string_scope.

(** The number of entries the game state gives: a header and one line per
    checker, a header and one line per die that is set, two for a cube with
    an x, and the blank line. *)
Definition entry_count (gs : game_state) : nat :=
  (match checkers gs with
   | Some cs => 1 + List.length cs
   | None => 0
   end
   + match dice gs with
     | Some d =>
         1 + match red d with Some _ => 1 | None => 0 end
           + match white d with Some _ => 1 | None => 0 end
     | None => 0
     end
   + match cube gs with
     | Some c => match cube_x c with Some _ => 2 | None => 0 end
     | None => 0
     end
   + 1)%nat.

Definition ends_with_newline (line : string) : Prop :=
  exists text, line = text ++ nl.

Lemma str_app_nil_r (s : string) : s ++ "" = s.
Proof. induction s as [|c s IH]; simpl; [reflexivity | now rewrite IH]. Qed.

Lemma str_app_assoc (s t u : string) : (s ++ t) ++ u = s ++ t ++ u.
Proof. induction s as [|c s IH]; simpl; [reflexivity | now rewrite IH]. Qed.

Lemma implode_cons (a : string) (l : list string) :
  implode (a :: l) = a ++ implode l.
Proof.
  unfold implode. destruct l as [|b l]; simpl.
  - now rewrite str_app_nil_r.
  - reflexivity.
Qed.

Lemma implode_app (l1 l2 : list string) :
  implode (l1 ++ l2) = implode l1 ++ implode l2.
Proof.
  induction l1 as [|a l1 IH].
  - reflexivity.
  - cbn [app]. rewrite !implode_cons, IH, str_app_assoc. reflexivity.
Qed.

Lemma serialize_length (ts : string) (gs : game_state) :
  List.length (serialize ts gs) = entry_count gs.
Proof.
  rewrite serialize_sections. unfold entry_count.
  rewrite !length_app.
  unfold checkers_section, dice_section, cube_section.
  destruct (checkers gs) as [cs|];
    destruct (dice gs) as [[[r|] [w|]]|];
    destruct (cube gs) as [[[vx|] vy v]|];
    cbn [red white cube_x List.length app]; rewrite ?length_map; lia.
Qed.

(** X8.  The [logged] field of a success response counts the entries
    written, headers and blank line included: one for the blank line, one
    plus the number of checkers when [checkers] is an array, one plus the
    number of dice set when [dice] is set, and two when the cube has an x. *)
Theorem logged_counts_entries (env : environment) (req : request)
    (file : string) (gs : game_state) :
  request_method req = "POST" -> validate (data req) = Some gs ->
  write_ok env = true ->
  fst (save_move env req file) =
  {| status := 200; body := SuccessBody (entry_count gs) (now env) |}.
Proof.
  intros Hm Hv Hw.
  rewrite (save_move_valid env req file gs Hm Hv).
  unfold file_put_contents. rewrite Hw. cbn [fst].
  now rewrite serialize_length.
Qed.

Lemma logged_counts_entries_witness :
  fst (save_move {| now := "2025-10-26 15:22:41"; write_ok := true |}
         (post no_pips_no_value "2025-10-26T15:22:41.000Z") "") =
  {| status := 200; body := SuccessBody 7 "2025-10-26 15:22:41" |}.
Proof.
  apply (logged_counts_entries
           {| now := "2025-10-26 15:22:41"; write_ok := true |}
           (post no_pips_no_value "2025-10-26T15:22:41.000Z") ""
           no_pips_no_value); reflexivity.
Defined.

Lemma header_ends_with_newline (ts title : string) :
  ends_with_newline (header ts (title ++ nl)).
Proof.
  exists ("[" ++ ts ++ "] " ++ title). unfold header.
  now rewrite !str_app_assoc.
Qed.

Lemma checker_line_ends_with_newline (c : checker) :
  ends_with_newline (checker_line c).
Proof.
  unfold checker_line.
  set (vx := match checker_x c with Some v => _ | None => _ end).
  set (vy := match checker_y c with Some v => _ | None => _ end).
  exists ("  - Checker at position (x:" ++ vx ++ ", y:" ++ vy ++ ")").
  now rewrite !str_app_assoc.
Qed.

Lemma die_line_ends_with_newline (color : string) (d : die) :
  ends_with_newline (die_line color d).
Proof.
  unfold die_line.
  exists ("  - " ++ color ++ " Die: " ++ or_question_mark (die_pips d)
          ++ " pips at (x:" ++ interpolate_round (die_x d) ++ ", y:"
          ++ interpolate_round (die_y d) ++ ")").
  now rewrite !str_app_assoc.
Qed.

Lemma cube_line_ends_with_newline (vx vy : Q) (v : option scalar) :
  ends_with_newline (cube_line vx vy v).
Proof.
  unfold cube_line.
  exists ("  - Cube at (x:" ++ interpolate_round vx ++ ", y:"
          ++ interpolate_round vy ++ "), value: " ++ or_question_mark v).
  now rewrite !str_app_assoc.
Qed.

Lemma implode_serialize (ts : string) (gs : game_state) :
  implode (serialize ts gs)
  = implode (checkers_section ts gs ++ dice_section ts gs
             ++ cube_section ts gs) ++ nl.
Proof.
  rewrite serialize_sections, !app_assoc, implode_app.
  reflexivity.
Qed.

(** X9.  What a request appends is made of newline-terminated entries and
    ends with the blank line: the entries are some entries that each end
    with a line feed, followed by the entry that is a line feed alone, and
    the text written is their concatenation. *)
Theorem appended_text_is_whole_lines (ts : string) (gs : game_state) :
  exists front : list string,
    serialize ts gs = (front ++ [nl])%list /\
    Forall ends_with_newline front /\
    implode (serialize ts gs) = implode front ++ nl.
Proof.
  exists (checkers_section ts gs ++ dice_section ts gs
          ++ cube_section ts gs)%list.
  split; [rewrite serialize_sections; now rewrite <- !app_assoc|].
  split.
  - apply Forall_app. split; [|apply Forall_app; split].
    + unfold checkers_section.
      destruct (checkers gs) as [cs|]; [|apply Forall_nil].
      apply Forall_cons.
      * unfold checkers_header.
        replace ("=== CHECKERS === ("
                 ++ string_of_Z (Z.of_nat (List.length cs)) ++ " found)" ++ nl)
          with (("=== CHECKERS === ("
                 ++ string_of_Z (Z.of_nat (List.length cs)) ++ " found)")
                ++ nl)
          by (rewrite !str_app_assoc; reflexivity).
        apply header_ends_with_newline.
      * apply Forall_forall. intros l Hl.
        apply in_map_iff in Hl. destruct Hl as [c [<- _]].
        apply checker_line_ends_with_newline.
    + unfold dice_section.
      destruct (dice gs) as [d|]; [|apply Forall_nil].
      apply Forall_cons;
        [apply (header_ends_with_newline ts "=== DICE ===")|].
      apply Forall_app. split.
      * destruct (red d); [|apply Forall_nil].
        apply Forall_cons; [apply die_line_ends_with_newline|apply Forall_nil].
      * destruct (white d); [|apply Forall_nil].
        apply Forall_cons; [apply die_line_ends_with_newline|apply Forall_nil].
    + unfold cube_section.
      destruct (cube gs) as [c|]; [|apply Forall_nil].
      destruct (cube_x c) as [vx|]; [|apply Forall_nil].
      apply Forall_cons;
        [apply (header_ends_with_newline ts "=== DOUBLING CUBE ===")|].
      apply Forall_cons; [apply cube_line_ends_with_newline|apply Forall_nil].
  - rewrite serialize_sections, !app_assoc, implode_app.
    reflexivity.
Qed.

(** X10.  The tests that decide the status are made in this order: the
    answer is 405 exactly when the method is not POST, and 400 exactly when
    it is POST and the body fails validation; when the log can be written,
    the answer is 200 exactly when the request is a valid POST. *)
Theorem save_move_status_table (env : environment) (req : request)
    (file : string) :
  let st := status (fst (save_move env req file)) in
  (st = 405%nat <-> request_method req <> "POST") /\
  (st = 400%nat <->
   request_method req = "POST" /\ validate (data req) = None) /\
  (write_ok env = true ->
   (st = 200%nat <->
    request_method req = "POST" /\ validate (data req) <> None)).
Proof.
  cbv zeta.
  destruct (String.eqb_spec (request_method req) "POST") as [Hm | Hm].
  - destruct (validate (data req)) as [gs|] eqn:Hv.
    + rewrite (save_move_valid env req file gs Hm Hv).
      unfold file_put_contents.
      destruct (write_ok env); cbn [fst status];
        repeat split; try discriminate; try congruence;
        intros; try tauto; try (intuition congruence).
    + unfold save_move. rewrite Hm, Hv. cbn [String.eqb negb fst status].
      repeat split; try discriminate; try congruence;
        intros; try tauto; try (intuition congruence).
  - unfold save_move.
    destruct (String.eqb (request_method req) "POST") eqn:Em.
    + apply String.eqb_eq in Em. contradiction.
    + cbn [negb fst status].
      repeat split; try discriminate; try congruence;
        intros; try tauto; try (intuition congruence).
Qed.

Lemma save_move_status_table_witness :
  status (fst (save_move {| now := "2025-10-26 15:22:41"; write_ok := true |}
                 (SaveMoveFacts.post SaveMoveFacts.one_checker "sent") "old"))
  = 200%nat.
Proof.
  apply (proj2 (proj2 (save_move_status_table
           {| now := "2025-10-26 15:22:41"; write_ok := true |}
           (SaveMoveFacts.post SaveMoveFacts.one_checker "sent") "old"))
           eq_refl).
  split; [reflexivity | discriminate].
Defined.

(** X11.  A request answered 405 or 400 leaves the log as it was,
    whatever the state of the disk.  When the log can be written the handler
    only appends: the log after the request is the old log followed by a
    suffix, and the suffix is non-empty exactly when the answer is 200. *)
Theorem log_is_append_only (env : environment) (req : request)
    (file : string) :
  let r := save_move env req file in
  (status (fst r) = 405%nat \/ status (fst r) = 400%nat -> snd r = file) /\
  (write_ok env = true ->
   exists suffix : string,
     snd r = file ++ suffix /\
     (suffix <> "" <-> status (fst r) = 200%nat)).
Proof.
  cbv zeta. unfold save_move.
  destruct (negb (String.eqb (request_method req) "POST")).
  - cbn [fst snd status]. split; [reflexivity|].
    intros _. exists "". rewrite str_app_nil_r.
    split; [reflexivity|]. split; [congruence | discriminate].
  - destruct (validate (data req)) as [gs|].
    + assert (E : is_empty (serialize (now env) gs) = false).
      { pose proof (serialize_length (now env) gs) as Hl.
        unfold entry_count in Hl.
        destruct (serialize (now env) gs); [simpl in Hl; lia | reflexivity]. }
      rewrite E. cbn [negb]. unfold file_put_contents.
      destruct (write_ok env); cbn [fst snd status].
      * split; [intros [Hs | Hs]; discriminate Hs|].
        intros _. exists (implode (serialize (now env) gs)).
        split; [reflexivity|]. split; [reflexivity|].
        intros _. rewrite implode_serialize.
        destruct (implode _); discriminate.
      * split; [reflexivity | discriminate].
    + cbn [fst snd status]. split; [reflexivity|].
      intros _. exists "". rewrite str_app_nil_r.
      split; [reflexivity|]. split; [congruence | discriminate].
Qed.

Lemma log_is_append_only_witness :
  exists suffix : string,
    snd (save_move {| now := "2025-10-26 15:22:41"; write_ok := true |}
           (SaveMoveFacts.post SaveMoveFacts.one_checker "sent") "old")
    = "old" ++ suffix /\
    (suffix <> "" <->
     status (fst (save_move {| now := "2025-10-26 15:22:41"; write_ok := true |}
                    (SaveMoveFacts.post SaveMoveFacts.one_checker "sent") "old"))
     = 200%nat).
Proof.
  apply (proj2 (log_is_append_only
           {| now := "2025-10-26 15:22:41"; write_ok := true |}
           (SaveMoveFacts.post SaveMoveFacts.one_checker "sent") "old")).
  reflexivity.
Defined.

(** X12.  A checker whose x (or y) is not set is logged with 0 in its
    place: its line is the line of the checker with that coordinate equal
    to 0. *)
Theorem checker_without_coordinate_logged_at_zero (c : checker) :
  checker_line c =
  checker_line
    {| checker_x := Some match checker_x c with Some v => v | None => 0 end;
       checker_y := Some match checker_y c with Some v => v | None => 0 end |}.
Proof.
  destruct c as [[vx|] [vy|]]; reflexivity.
Qed.

End SaveMoveMoreFacts.

(** * Properties of the first version of the log writer *)

Module SaveMoveV1Facts.

Import SaveMove SaveMoveV1.
#[local] Open Scope string_scope.

Lemma log_detections_app (ts : string) (ds : list detection)
    (logEntries : list string) :
  log_detections ts ds logEntries
  = (logEntries ++ map (detection_line ts) ds)%list.
Proof.
  revert logEntries.
  induction ds as [|d ds IH]; intros logEntries; simpl.
  - now rewrite app_nil_r.
  - rewrite IH. unfold push. now rewrite <- app_assoc.
Qed.

(** X13.  The first version answers a valid POST that carries an empty
    list of detections with the server error "Failed to write to log
    file", although it never tries to write: with no entry the write is
    skipped and [$success] stays false.  The log is unchanged. *)
Theorem empty_detections_reported_as_write_failure (env : environment)
    (req : SaveMoveV1.request) (file : string) :
  SaveMoveV1.request_method req = "POST" ->
  SaveMoveV1.validate (SaveMoveV1.data req) = Some [] ->
  SaveMoveV1.save_move env req file =
  ({| status := 500;
      body := ServerErrorBody "Server error" "Failed to write to log file" |},
   file).
Proof.
  intros Hm Hv. unfold SaveMoveV1.save_move. rewrite Hm, Hv. reflexivity.
Qed.

Lemma empty_detections_reported_as_write_failure_witness :
  SaveMoveV1.save_move {| now := "2025-10-26 15:22:41"; write_ok := true |}
    {| SaveMoveV1.request_method := "POST";
       SaveMoveV1.data :=
         Some {| detections := Some [];
                 SaveMoveV1.timestamp := Some "2025-10-26T15:22:41.000Z" |} |}
    "old" =
  ({| status := 500;
      body := ServerErrorBody "Server error" "Failed to write to log file" |},
   "old").
Proof.
  apply (empty_detections_reported_as_write_failure
           {| now := "2025-10-26 15:22:41"; write_ok := true |}
           {| SaveMoveV1.request_method := "POST";
              SaveMoveV1.data :=
                Some {| detections := Some [];
                        SaveMoveV1.timestamp :=
                          Some "2025-10-26T15:22:41.000Z" |} |}
           "old"); reflexivity.
Defined.

(** X14.  For a valid POST with at least one detection whose write
    succeeds, the first version appends one line per detection, in order,
    each prefixed with the server timestamp, and answers 200 with [logged]
    equal to the number of detections. *)
Theorem one_line_per_detection (env : environment)
    (req : SaveMoveV1.request) (file : string) (ds : list detection) :
  SaveMoveV1.request_method req = "POST" ->
  SaveMoveV1.validate (SaveMoveV1.data req) = Some ds ->
  ds <> [] -> write_ok env = true ->
  SaveMoveV1.save_move env req file =
  ({| status := 200; body := SuccessBody (List.length ds) (now env) |},
   file ++ implode (map (detection_line (now env)) ds)).
Proof.
  intros Hm Hv Hne Hw. unfold SaveMoveV1.save_move. rewrite Hm, Hv.
  cbn [String.eqb negb]. rewrite log_detections_app. cbn [app].
  destruct ds as [|d ds]; [contradiction|].
  cbn [map is_empty negb]. unfold file_put_contents. rewrite Hw.
  cbn [List.length]. rewrite length_map. reflexivity.
Qed.

Lemma one_line_per_detection_witness :
  SaveMoveV1.save_move {| now := "2025-10-26 15:22:41"; write_ok := true |}
    {| SaveMoveV1.request_method := "POST";
       SaveMoveV1.data :=
         Some {| detections :=
                   Some [ {| detection_x := Some (1204 # 10);
                             detection_y := Some (3396 # 10) |};
                          {| detection_x := None;
                             detection_y := Some (5 # 2) |} ];
                 SaveMoveV1.timestamp := Some "2025-10-26T15:22:41.000Z" |} |}
    "" =
  ({| status := 200; body := SuccessBody 2 "2025-10-26 15:22:41" |},
   "[2025-10-26 15:22:41] Checker detected at position (x:120, y:340)" ++ nl
   ++ "[2025-10-26 15:22:41] Checker detected at position (x:0, y:3)" ++ nl).
Proof.
  apply (one_line_per_detection
           {| now := "2025-10-26 15:22:41"; write_ok := true |}
           {| SaveMoveV1.request_method := "POST";
              SaveMoveV1.data :=
                Some {| detections :=
                          Some [ {| detection_x := Some (1204 # 10);
                                    detection_y := Some (3396 # 10) |};
                                 {| detection_x := None;
                                    detection_y := Some (5 # 2) |} ];
                        SaveMoveV1.timestamp :=
                          Some "2025-10-26T15:22:41.000Z" |} |}
           ""
           [ {| detection_x := Some (1204 # 10);
                detection_y := Some (3396 # 10) |};
             {| detection_x := None; detection_y := Some (5 # 2) |} ]);
    try reflexivity; discriminate.
Defined.

(** X15.  In the first version too a request answered 405 or 400 leaves
    the log as it was, whatever the state of the disk.  When the log can be
    written the log after the request is the old log followed by a suffix,
    and the suffix is non-empty exactly when the status is 200. *)
Theorem first_version_append_only (env : environment)
    (req : SaveMoveV1.request) (file : string) :
  let r := SaveMoveV1.save_move env req file in
  (status (fst r) = 405%nat \/ status (fst r) = 400%nat -> snd r = file) /\
  (write_ok env = true ->
   exists suffix : string,
     snd r = file ++ suffix /\
     (suffix <> "" <-> status (fst r) = 200%nat)).
Proof.
  cbv zeta. unfold SaveMoveV1.save_move.
  destruct (negb (String.eqb (SaveMoveV1.request_method req) "POST")).
  - cbn [fst snd status]. split; [reflexivity|].
    intros _. exists "". rewrite SaveMoveMoreFacts.str_app_nil_r.
    split; [reflexivity|]. split; [congruence | discriminate].
  - destruct (SaveMoveV1.validate (SaveMoveV1.data req)) as [ds|].
    + rewrite log_detections_app. cbn [app].
      destruct ds as [|d ds]; cbn [map is_empty negb].
      * cbn [fst snd status]. split; [reflexivity|].
        intros _. exists "". rewrite SaveMoveMoreFacts.str_app_nil_r.
        split; [reflexivity|]. split; [congruence | discriminate].
      * unfold file_put_contents.
        destruct (write_ok env); cbn [fst snd status].
        -- split; [intros [Hs | Hs]; discriminate Hs|].
           intros _. eexists. split; [reflexivity|]. split; [reflexivity|].
           intros _. rewrite SaveMoveMoreFacts.implode_cons.
           unfold detection_line. discriminate.
        -- split; [reflexivity | discriminate].
    + cbn [fst snd status]. split; [reflexivity|].
      intros _. exists "". rewrite SaveMoveMoreFacts.str_app_nil_r.
      split; [reflexivity|]. split; [congruence | discriminate].
Qed.

End SaveMoveV1Facts.

(** * Properties of the first version of the client *)

Module ClientV1Facts.

Import Detector DetectorMore DetectorV1 AppV1.
#[local] Open Scope string_scope.

Definition triple_of_detection {num : Type} (d : detection num)
    : num * num * option num :=
  (detection_x d, detection_y d, detection_radius d).

Definition triple_of_checker {num : Type} (c : checker num)
    : num * num * option num :=
  (checker_x c, checker_y c, checker_radius c).

Section DetectLoop.
Context {num : Type} `{JSNumber num}.
Variable canvas : canvas_t num.
Variable circle : list num.

Lemma detect_loop_spec (steps i : nat) (detections : list (detection num))
    (drawn : list (num * num * option num)) (checkers : list (checker num)) :
  map triple_of_detection detections = drawn ->
  map triple_of_detection detections = map triple_of_checker checkers ->
  let r := detect_loop canvas circle i steps (detections, drawn) in
  map triple_of_detection (fst r) = snd r /\
  map triple_of_detection (fst r)
  = map triple_of_checker (checkers_loop canvas circle i steps checkers).
Proof.
  revert i detections drawn checkers.
  induction steps as [|steps IH]; intros i detections drawn checkers Hd Hc.
  - split; assumption.
  - cbn [detect_loop checkers_loop]. unfold detect_step, checkers_step.
    destruct (nth_error circle (i * 3)) as [x0|]; [|now apply IH].
    destruct (nth_error circle (i * 3 + 1)) as [y0|]; [|now apply IH].
    destruct (_ && _); [|now apply IH].
    apply IH.
    + rewrite map_app, Hd. reflexivity.
    + rewrite !map_app, Hc. reflexivity.
Qed.

End DetectLoop.

(** X16.  The first version's [detect] returns nothing and draws nothing
    while the detector is not initialized or the video is not ready.
    Otherwise every detection it returns is drawn on the canvas, in the
    same order, and nothing else is; and the detections are the checkers
    the second version's [detectCheckers] finds on the same circles. *)
Theorem first_detect_returns_what_it_draws :
  forall (num : Type) (N : JSNumber num) (initialized ready : bool)
         (canvas : canvas_t num) (circles : mat num),
    let r := detect initialized ready canvas circles in
    map triple_of_detection (fst r) = snd r /\
    (initialized && ready = false -> r = ([], [])) /\
    (initialized && ready = true ->
     map triple_of_detection (fst r)
     = map triple_of_checker (detectCheckers canvas circles)).
Proof.
  intros num N initialized ready canvas circles r. subst r.
  unfold detect, detectCheckers.
  destruct initialized, ready; cbn [negb orb andb fst snd map].
  - destruct (detect_loop_spec canvas (data32F circles) (rows circles) 0
                [] [] [] eq_refl eq_refl) as [H1 H2].
    split; [exact H1|]. split; [discriminate | intros _; exact H2].
  - split; [reflexivity|]. split; [reflexivity | discriminate].
  - split; [reflexivity|]. split; [reflexivity | discriminate].
  - split; [reflexivity|]. split; [reflexivity | discriminate].
Qed.

Lemma forEach_item_app (arr : list (Q * Q)) (idx : nat) (html : string) :
  forEach_item idx arr html
  = html ++ String.concat ""
              (map (fun p => item (fst p) (snd p))
                   (combine (seq idx (List.length arr)) arr)).
Proof.
  revert idx html. induction arr as [|det arr IH]; intros idx html.
  - cbn. now rewrite SaveMoveMoreFacts.str_app_nil_r.
  - cbn [forEach_item List.length seq combine map fst snd].
    rewrite IH.
    change (String.concat "" (?a :: ?l)) with (SaveMove.implode (a :: l)).
    rewrite SaveMoveMoreFacts.implode_cons,
      SaveMoveMoreFacts.str_app_assoc.
    reflexivity.
Qed.

(** X17.  [updateInfoPanel] leaves the panel as it is for an empty list.
    For n > 0 detections it shows min(5, n) items, for the last min(5, n)
    detections in their order, numbered from 1 whatever their position in
    the list, each with its coordinates rounded by [Math.round]. *)
Theorem info_panel_shows_last_five (detections : list (Q * Q))
    (infoContent : string) :
  let n := List.length detections in
  let shown := skipn (n - 5) detections in
  (detections = [] -> updateInfoPanel detections infoContent = infoContent) /\
  (detections <> [] ->
   updateInfoPanel detections infoContent
   = "<p><strong>Recent Detections:</strong></p><ul>"
     ++ String.concat ""
          (map (fun p => item (fst p) (snd p))
               (combine (seq 0 (List.length shown)) shown))
     ++ "</ul>") /\
  List.length shown = Nat.min 5 n /\
  (forall k, nth_error shown k = nth_error detections (n - 5 + k)).
Proof.
  intros n shown.
  split; [intros ->; reflexivity|].
  split; [|split].
  - intros Hne. unfold updateInfoPanel.
    destruct detections as [|d ds]; [contradiction|].
    cbv zeta. rewrite forEach_item_app.
    unfold slice_last_five. fold n. fold shown.
    now rewrite SaveMoveMoreFacts.str_app_assoc.
  - subst shown. rewrite length_skipn. fold n. lia.
  - intros k. subst shown. apply nth_error_skipn.
Qed.

(** X18.  For a detection at pixel coordinates (positive, below 10^7, not
    within 10^-6 of a half-way point without being on it) the integers shown
    in the info panel are the integers the first version of the server
    writes in the log: [Math.round] and PHP's [round] agree there.  They
    differ on a negative half: -2.5 is shown as -2 and logged as -3. *)
Theorem panel_and_log_show_same_integers (ts : string) (vx vy : Q) :
  SaveMoveFacts.pixel_coordinate vx = true ->
  SaveMoveFacts.pixel_coordinate vy = true ->
  SaveMoveV1.detection_line ts
    {| SaveMoveV1.detection_x := Some vx; SaveMoveV1.detection_y := Some vy |}
  = "[" ++ ts ++ "] Checker detected at position (x:"
    ++ SaveMove.string_of_Z (Math_round vx) ++ ", y:"
    ++ SaveMove.string_of_Z (Math_round vy) ++ ")" ++ SaveMove.nl
  /\ Math_round (- (5 # 2)) = (-2)%Z
  /\ SaveMove.php_round (- (5 # 2)) = (-3)%Z.
Proof.
  intros Hx Hy.
  apply SaveMoveFacts.pixel_coordinate_pos in Hx.
  apply SaveMoveFacts.pixel_coordinate_pos in Hy.
  split; [|split; reflexivity].
  unfold SaveMoveV1.detection_line, Math_round.
  cbn [SaveMoveV1.detection_x SaveMoveV1.detection_y].
  rewrite (SaveMoveFacts.interpolate_round_nonneg vx Hx),
    (SaveMoveFacts.interpolate_round_nonneg vy Hy).
  reflexivity.
Qed.

Lemma panel_and_log_show_same_integers_witness :
  SaveMoveV1.detection_line "2025-10-26 15:22:41"
    {| SaveMoveV1.detection_x := Some (1204 # 10);
       SaveMoveV1.detection_y := Some (5 # 2) |}
  = "[2025-10-26 15:22:41] Checker detected at position (x:120, y:3)"
    ++ SaveMove.nl
  /\ Math_round (- (5 # 2)) = (-2)%Z
  /\ SaveMove.php_round (- (5 # 2)) = (-3)%Z.
Proof.
  apply (panel_and_log_show_same_integers "2025-10-26 15:22:41"
           (1204 # 10) (5 # 2)); reflexivity.
Defined.

End ClientV1Facts.
